(** * The conversation store of the DBAAS chat front end

    A shallow embedding of the chat state engine:
    - [src/utils/helpers.ts]      (message and conversation helpers),
    - [src/utils/constants.ts]    (limits and storage keys),
    - [src/services/storage.ts]   (the storage services and [storageUtils]),
    - [src/contexts/ChatContext.tsx] (the reducer and the provider's operations),
    - [src/pages/ChatPage.tsx]    (the effect that opens a conversation),
    - [src/contexts/UIContext.tsx], [src/hooks/useChat.ts],
      [src/hooks/useDeviceDetection.ts],
      [src/components/input/MessageInput.tsx] (the UI state, the chat hook,
      the device classes and the message input),
    - [src/lib/mockApi.ts] and [src/services/api.ts] (the mock backend),
    followed by the properties of the store.

    Conventions.  A JavaScript string is a [string] whose characters are
    code units below 256.  A valid [Date] is its time value, an integer
    number of milliseconds since the epoch.  The clock ([Date.now()],
    [new Date()]) and [Math.random()] are inputs of the operations. *)

From Stdlib Require Import ZArith Ascii String Permutation Sorted.
From stdpp Require Import base option list sorting strings pretty gmap.

Set Warnings "-register-all".

Local Open Scope string_scope.
Local Open Scope Z_scope.

(** ** JavaScript built-ins used by the sources *)

Module JS.

(** White space removed by [String.prototype.trim], among the code units
    below 256: TAB, LF, VT, FF, CR, SPACE and NBSP. *)
Definition is_white_space (c : ascii) : bool :=
  bool_decide (Ascii.nat_of_ascii c ∈ [9; 10; 11; 12; 13; 32; 160]%nat).

Fixpoint trimStart (s : string) : string :=
  match s with
  | EmptyString => EmptyString
  | String c r => if is_white_space c then trimStart r else s
  end.

Definition trimEnd (s : string) : string :=
  String.rev (trimStart (String.rev s)).

Definition trim (s : string) : string := trimEnd (trimStart s).

(** [s.length] *)
Definition length (s : string) : Z := Z.of_nat (String.length s).

(** [s.substr(0, n)] *)
Definition substr0 (s : string) (n : Z) : string :=
  String.substring 0 (Z.to_nat n) s.

(** [s.split(sep)] for a separator of one character: never empty. *)
Fixpoint split (sep : ascii) (s : string) : list string :=
  match s with
  | EmptyString => [EmptyString]
  | String c r =>
      if bool_decide (c = sep) then EmptyString :: split sep r
      else match split sep r with
           | w :: ws => String c w :: ws
           | [] => [String c EmptyString]
           end
  end.

(** [a.slice(0, n)] *)
Definition slice0 {A} (l : list A) (n : nat) : list A := take n l.

(** [a.join(sep)] *)
Fixpoint join (sep : string) (l : list string) : string :=
  match l with
  | [] => EmptyString
  | [w] => w
  | w :: ws => w +:+ sep +:+ join sep ws
  end.

(** Truthiness of a [string | null | undefined]: the empty string is falsy. *)
Definition truthy (o : option string) : bool :=
  match o with
  | Some s => negb (bool_decide (s = EmptyString))
  | None => false
  end.

(** [o || fallback] on a [string | undefined]. *)
Definition or_else (o : option string) (fallback : string) : string :=
  match o with
  | Some s => if bool_decide (s = EmptyString) then fallback else s
  | None => fallback
  end.

(** [s.substring(0, n)] *)
Definition substring0 (s : string) (n : Z) : string :=
  String.substring 0 (Z.to_nat n) s.

(** [toLowerCase] of a code unit below 256: the letters A to Z, and the
    capital letters of Latin-1 (192 to 222, the sign at 215 apart). *)
Definition lower (c : ascii) : ascii :=
  let n := Ascii.nat_of_ascii c in
  if bool_decide (65 ≤ n ≤ 90)%nat
     || (bool_decide (192 ≤ n ≤ 222)%nat && negb (bool_decide (n = 215%nat)))
  then Ascii.ascii_of_nat (n + 32) else c.

Fixpoint toLowerCase (s : string) : string :=
  match s with
  | EmptyString => EmptyString
  | String c r => String (lower c) (toLowerCase r)
  end.

(** [s.includes(sub)] *)
Fixpoint includes (s sub : string) : bool :=
  String.prefix sub s
  || match s with
     | EmptyString => false
     | String _ r => includes r sub
     end.

End JS.

(** ** [src/types/index.ts] *)

Inductive Role := user | assistant.
Inductive ChatMode := normal | deepthink | research.

(** A valid [Date]: milliseconds since the epoch. *)
Definition Date := Z.

Record Message := mkMessage {
  msg_id : string;
  content : string;
  role : Role;
  timestamp : Date;
  msg_isTyping : option bool
}.

Record Conversation := mkConversation {
  id : string;
  title : string;
  messages : list Message;
  createdAt : Date;
  updatedAt : Date;
  mode : option ChatMode
}.

Record ChatState := mkChatState {
  conversations : list Conversation;
  currentConversationId : option string;
  isLoading : bool;
  isTyping : bool;
  error : option string
}.

Record ApiResponse (T : Type) := mkApiResponse {
  data : option T;
  success : bool;
  message : option string
}.
Arguments mkApiResponse {T} _ _ _.
Arguments data {T} _.
Arguments success {T} _.
Arguments message {T} _.

Record SendMessageRequest := mkSendMessageRequest {
  req_message : string;
  req_conversationId : option string;
  req_mode : ChatMode
}.

Record SendMessageResponse := mkSendMessageResponse {
  res_message : Message;
  res_conversationId : string
}.

#[global] Instance Role_eq_dec : EqDecision Role.
Proof. solve_decision. Defined.
#[global] Instance ChatMode_eq_dec : EqDecision ChatMode.
Proof. solve_decision. Defined.
#[global] Instance Message_eq_dec : EqDecision Message.
Proof. solve_decision. Defined.
#[global] Instance Conversation_eq_dec : EqDecision Conversation.
Proof. solve_decision. Defined.

(** ** [src/utils/constants.ts] *)

Module APP_CONFIG.
Definition MAX_MESSAGE_LENGTH : Z := 4000.
End APP_CONFIG.

Module CHAT_CONSTANTS.
Definition MAX_CONVERSATIONS : nat := 50.
Definition MAX_MESSAGES_PER_CONVERSATION : nat := 1000.
End CHAT_CONSTANTS.

Module UI_CONSTANTS.
Definition MOBILE_BREAKPOINT : Z := 768.
Definition TABLET_BREAKPOINT : Z := 1024.
End UI_CONSTANTS.

Module STORAGE_KEYS.
Definition CONVERSATIONS : string := "dbaas_chat_conversations".
Definition CURRENT_CONVERSATION : string := "dbaas_current_conversation_id".
Definition UI_STATE : string := "dbaas_ui_state".
Definition USER_SETTINGS : string := "dbaas_user_settings".
Definition THEME : string := "dbaas_theme".
Definition LANGUAGE : string := "dbaas_language".
(** [Object.values(STORAGE_KEYS)] *)
Definition values : list string :=
  [CONVERSATIONS; CURRENT_CONVERSATION; UI_STATE; USER_SETTINGS; THEME;
   LANGUAGE].
End STORAGE_KEYS.

(** ** [src/utils/helpers.ts] *)

Definition truncateText (text : string) (maxLength : Z) : string :=
  if JS.length text <=? maxLength then text
  else JS.substr0 text maxLength +:+ "...".

Definition generateConversationTitle (firstMessage : string) : string :=
  let words := JS.split " "%char (JS.trim firstMessage) in
  let title := JS.join " " (JS.slice0 words 6) in
  truncateText title 50.

Record Validation := mkValidation {
  isValid : bool;
  validation_error : option string
}.

Definition validateMessage (content : string) : Validation :=
  if bool_decide (content = EmptyString) || (JS.length (JS.trim content) =? 0)
  then mkValidation false (Some "Message cannot be empty")
  else if JS.length content >? APP_CONFIG.MAX_MESSAGE_LENGTH
  then mkValidation false
         (Some ("Message too long. Maximum "
                +:+ pretty APP_CONFIG.MAX_MESSAGE_LENGTH
                +:+ " characters allowed."))
  else mkValidation true None.

(** [createMessage]: [rid] is what [generateId()] returned and [now] what
    [new Date()] read. *)
Definition createMessage (rid : string) (now : Date)
    (text : string) (r : Role) : Message :=
  {| msg_id := rid;
     content := JS.trim text;
     role := r;
     timestamp := now;
     msg_isTyping := Some false |}.

(** [updateConversationWithMessage]: [now] is what [new Date()] read. *)
Definition updateConversationWithMessage (now : Date)
    (conversation : Conversation) (m : Message) : Conversation :=
  {| id := id conversation;
     title := if bool_decide (messages conversation = [])
              then generateConversationTitle (content m)
              else title conversation;
     messages := messages conversation ++ [m];
     createdAt := createdAt conversation;
     updatedAt := now;
     mode := mode conversation |}.

(** [Array.prototype.sort] is stable; with the comparator
    [(a, b) => b.updatedAt.getTime() - a.updatedAt.getTime()] an element
    stays before the ones that are not strictly more recent. *)
Fixpoint insertByDate (c : Conversation) (sorted : list Conversation)
    : list Conversation :=
  match sorted with
  | [] => [c]
  | d :: rest =>
      if updatedAt d <=? updatedAt c then c :: sorted
      else d :: insertByDate c rest
  end.

Definition sortConversationsByDate (cs : list Conversation)
    : list Conversation :=
  foldr insertByDate [] cs.

Definition limitConversations (cs : list Conversation)
    : list Conversation :=
  JS.slice0 (sortConversationsByDate cs) CHAT_CONSTANTS.MAX_CONVERSATIONS.

(** [createConversation]: [cid] and [mid] are what the two calls of
    [generateId()] return, [now] what [new Date()] reads. *)
Definition createConversation (cid mid : string) (now : Date)
    (firstMessage : option string) : Conversation :=
  {| id := cid;
     title := match firstMessage with
              | Some first =>
                  if JS.truthy firstMessage
                  then generateConversationTitle first
                  else "New Conversation"
              | None => "New Conversation"
              end;
     messages := match firstMessage with
                 | Some first =>
                     if JS.truthy firstMessage
                     then [createMessage mid now first user]
                     else []
                 | None => []
                 end;
     createdAt := now;
     updatedAt := now;
     mode := Some normal |}.

(** [formatTimestamp]: [now] is what [new Date()] reads;
    [toLocaleDateString] is the browser's, for its locale. *)
Definition formatTimestamp (toLocaleDateString : Date -> string)
    (now timestamp : Date) : string :=
  let diff := now - timestamp in
  let minutes := diff / 60000 in
  let hours := diff / 3600000 in
  let days := diff / 86400000 in
  if minutes <? 1 then "Just now"
  else if minutes <? 60 then pretty minutes +:+ "m ago"
  else if hours <? 24 then pretty hours +:+ "h ago"
  else if days <? 7 then pretty days +:+ "d ago"
  else toLocaleDateString timestamp.

(** The three device tests, on [window.innerWidth]. *)
Definition isMobileDevice (innerWidth : Z) : bool := innerWidth <? 768.

Definition isTabletDevice (innerWidth : Z) : bool :=
  (768 <=? innerWidth) && (innerWidth <? 1024).

Definition isDesktopDevice (innerWidth : Z) : bool := 1024 <=? innerWidth.

(** ** [src/hooks/useDeviceDetection.ts] *)

(** [checkDeviceType]: the three flags it sets, mobile, tablet, desktop. *)
Definition checkDeviceType (width : Z) : bool * bool * bool :=
  let mobile := width <? UI_CONSTANTS.MOBILE_BREAKPOINT in
  let tablet := (UI_CONSTANTS.MOBILE_BREAKPOINT <=? width)
                && (width <? UI_CONSTANTS.TABLET_BREAKPOINT) in
  let desktop := UI_CONSTANTS.TABLET_BREAKPOINT <=? width in
  (mobile, tablet, desktop).

(** ** JSON documents and the values [JSON.stringify] and [JSON.parse] relate *)

Module JSON.

(** A JSON document, the content of a well-formed JSON text. *)
Inductive doc :=
| Null
| Bool (b : bool)
| Num (z : Z)
| Str (s : string)
| Arr (l : list doc)
| Obj (fields : list (string * doc)).

(** The JavaScript values the store handles.  An object is given by its
    own properties in the order of their enumeration.  A number is given
    by its value when that is an integer; the store holds no number, and
    the fractions, [NaN], the infinities and the negative zero are left
    out. *)
Inductive value :=
| VUndefined
| VNull
| VBool (b : bool)
| VNum (z : Z)
| VStr (s : string)
| VDate (t : Date)
| VArr (l : list value)
| VObj (fields : list (string * value)).

Definition pad (width : nat) (z : Z) : string :=
  let digits := pretty (Z.abs z) in
  String.concat "" (replicate (width - String.length digits) "0") +:+ digits.

(** The civil date of a day number counted from 1970-01-01. *)
Definition civil_from_days (days : Z) : Z * Z * Z :=
  let z := days + 719468 in
  let era := z / 146097 in
  let doe := z - era * 146097 in
  let yoe := (doe - doe / 1460 + doe / 36524 - doe / 146096) / 365 in
  let doy := doe - (365 * yoe + yoe / 4 - yoe / 100) in
  let mp := (5 * doy + 2) / 153 in
  let d := doy - (153 * mp + 2) / 5 + 1 in
  let m := if mp <? 10 then mp + 3 else mp - 9 in
  let y := yoe + era * 400 in
  (if m <=? 2 then y + 1 else y, m, d).

(** [Date.prototype.toISOString], which [Date.prototype.toJSON] calls. *)
Definition toISOString (t : Date) : string :=
  let '(y, m, d) := civil_from_days (t / 86400000) in
  let ms := t mod 86400000 in
  let year :=
    if (0 <=? y) && (y <=? 9999) then pad 4 y
    else (if y <? 0 then "-" else "+") +:+ pad 6 y in
  year +:+ "-" +:+ pad 2 m +:+ "-" +:+ pad 2 d
  +:+ "T" +:+ pad 2 (ms / 3600000)
  +:+ ":" +:+ pad 2 (ms / 60000 mod 60)
  +:+ ":" +:+ pad 2 (ms / 1000 mod 60)
  +:+ "." +:+ pad 3 (ms mod 1000) +:+ "Z".

(** [JSON.stringify]: [None] is [undefined].  A [Date] is written through
    [toJSON]; an [undefined] property is left out and an [undefined] array
    element is written [null]. *)
Fixpoint stringify (v : value) : option doc :=
  match v with
  | VUndefined => None
  | VNull => Some Null
  | VBool b => Some (Bool b)
  | VNum z => Some (Num z)
  | VStr s => Some (Str s)
  | VDate t => Some (Str (toISOString t))
  | VArr l => Some (Arr (map (fun x => default Null (stringify x)) l))
  | VObj fields =>
      Some (Obj (omap (fun '(k, x) => pair k <$> stringify x) fields))
  end.

(** [JSON.parse] without a reviver, on the document of a JSON text. *)
Fixpoint parse (d : doc) : value :=
  match d with
  | Null => VNull
  | Bool b => VBool b
  | Num z => VNum z
  | Str s => VStr s
  | Arr l => VArr (map parse l)
  | Obj fields => VObj (map (fun '(k, x) => (k, parse x)) fields)
  end.

(** Truthiness of a value. *)
Definition truthy (v : value) : bool :=
  match v with
  | VUndefined | VNull => false
  | VBool b => b
  | VNum z => negb (z =? 0)
  | VStr s => negb (bool_decide (s = EmptyString))
  | VDate _ | VArr _ | VObj _ => true
  end.

End JSON.

Import JSON.

(** The run-time objects of the typed records, properties in the order the
    sources write them. *)
Definition of_Role (r : Role) : value :=
  VStr match r with user => "user" | assistant => "assistant" end.

Definition of_ChatMode (m : option ChatMode) : value :=
  match m with
  | None => VUndefined
  | Some normal => VStr "normal"
  | Some deepthink => VStr "deepthink"
  | Some research => VStr "research"
  end.

Definition of_Message (m : Message) : value :=
  VObj [("id", VStr (msg_id m));
        ("content", VStr (content m));
        ("role", of_Role (role m));
        ("timestamp", VDate (timestamp m));
        ("isTyping", from_option VBool VUndefined (msg_isTyping m))].

Definition of_Conversation (c : Conversation) : value :=
  VObj [("id", VStr (id c));
        ("title", VStr (title c));
        ("messages", VArr (map of_Message (messages c)));
        ("createdAt", VDate (createdAt c));
        ("updatedAt", VDate (updatedAt c));
        ("mode", of_ChatMode (mode c))].

Definition of_Conversations (cs : list Conversation) : value :=
  VArr (map of_Conversation cs).

(** ** [src/services/storage.ts] *)

(** The text of an item: [Some d] is a JSON text of document [d], [None] a
    text [JSON.parse] rejects (such as the text written for [undefined]). *)
Definition text := option doc.

(** The browser's [localStorage]: whether the probe of [isAvailable] goes
    through, which writes it takes (a quota may refuse one), and its
    items. *)
Record Medium := mkMedium {
  available : bool;
  accepts : string -> text -> bool;
  items : gmap string text
}.

Module LocalStorageService.

(** The key that [isAvailable] writes and at once removes. *)
Definition test : string := "__localStorage_test__".

Definition isAvailable (m : Medium) : bool := available m.

(** The items once the probe has gone through,
    [localStorage.setItem(test, test); localStorage.removeItem(test)]: an
    item that was kept under [test] is lost.  Every operation of the
    service starts with the probe, so no read through the service can tell
    whether that item is still recorded: the reads look at [probed], and
    the [Medium] the other operations return does not record the
    removal. *)
Definition probed (m : Medium) : gmap string text :=
  delete test (<[test := None]> (items m)).

Definition getItem (m : Medium) (key : string) : value :=
  if negb (isAvailable m) then VNull
  else match probed m !! key with
       | None => VNull
       | Some (Some d) => parse d
       | Some None => VNull
       end.

Definition setItem (m : Medium) (key : string) (v : value) : Medium :=
  if negb (isAvailable m) then m
  else if accepts m key (stringify v)
  then mkMedium (available m) (accepts m) (<[key := stringify v]> (items m))
  else m.

Definition removeItem (m : Medium) (key : string) : Medium :=
  if negb (isAvailable m) then m
  else mkMedium (available m) (accepts m) (delete key (items m)).

Definition clear (m : Medium) : Medium :=
  if negb (isAvailable m) then m
  else mkMedium (available m) (accepts m) ∅.

End LocalStorageService.

Module storageUtils.

Import LocalStorageService.

Definition saveConversations (m : Medium) (cs : list Conversation) : Medium :=
  setItem m STORAGE_KEYS.CONVERSATIONS (of_Conversations cs).

Definition loadConversations (m : Medium) : value :=
  let item := getItem m STORAGE_KEYS.CONVERSATIONS in
  if truthy item then item else VArr [].

Definition saveCurrentConversationId (m : Medium) (i : option string)
    : Medium :=
  match i with
  | Some s =>
      if JS.truthy i then setItem m STORAGE_KEYS.CURRENT_CONVERSATION (VStr s)
      else removeItem m STORAGE_KEYS.CURRENT_CONVERSATION
  | None => removeItem m STORAGE_KEYS.CURRENT_CONVERSATION
  end.

(** Declared [string | null]: the item is one [saveCurrentConversationId]
    wrote, a string. *)
Definition loadCurrentConversationId (m : Medium) : option string :=
  match getItem m STORAGE_KEYS.CURRENT_CONVERSATION with
  | VStr s => Some s
  | _ => None
  end.

Definition saveUIState (m : Medium) (state : value) : Medium :=
  setItem m STORAGE_KEYS.UI_STATE state.

Definition loadUIState (m : Medium) : value :=
  let item := getItem m STORAGE_KEYS.UI_STATE in
  if truthy item then item else VObj [].

Definition saveUserSettings (m : Medium) (settings : value) : Medium :=
  setItem m STORAGE_KEYS.USER_SETTINGS settings.

Definition loadUserSettings (m : Medium) : value :=
  let item := getItem m STORAGE_KEYS.USER_SETTINGS in
  if truthy item then item else VObj [].

Definition saveTheme (m : Medium) (theme : string) : Medium :=
  setItem m STORAGE_KEYS.THEME (VStr theme).

Definition loadTheme (m : Medium) : value :=
  let item := getItem m STORAGE_KEYS.THEME in
  if truthy item then item else VStr "light".

Definition saveLanguage (m : Medium) (language : string) : Medium :=
  setItem m STORAGE_KEYS.LANGUAGE (VStr language).

Definition loadLanguage (m : Medium) : value :=
  let item := getItem m STORAGE_KEYS.LANGUAGE in
  if truthy item then item else VStr "en".

Definition clearAllData (m : Medium) : Medium :=
  foldl removeItem m STORAGE_KEYS.values.

End storageUtils.

(** ** [src/contexts/ChatContext.tsx]: the reducer *)

Definition initialState : ChatState :=
  {| conversations := [];
     currentConversationId := None;
     isLoading := false;
     isTyping := false;
     error := None |}.

Inductive ChatAction :=
| SET_LOADING (payload : bool)
| SET_TYPING (payload : bool)
| SET_ERROR (payload : option string)
| SET_CONVERSATIONS (payload : list Conversation)
| ADD_CONVERSATION (payload : Conversation)
| UPDATE_CONVERSATION (payload : Conversation)
| DELETE_CONVERSATION (payload : string)
| SET_CURRENT_CONVERSATION (payload : option string)
| ADD_MESSAGE (conversationId : string) (m : Message).

(** [chatReducer]: [now] is what [new Date()] reads while the action is
    reduced ([ADD_MESSAGE] stamps [updatedAt] with it). *)
Definition chatReducer (now : Date) (state : ChatState) (action : ChatAction)
    : ChatState :=
  match action with
  | SET_LOADING payload =>
      mkChatState (conversations state) (currentConversationId state)
        payload (isTyping state) (error state)
  | SET_TYPING payload =>
      mkChatState (conversations state) (currentConversationId state)
        (isLoading state) payload (error state)
  | SET_ERROR payload =>
      mkChatState (conversations state) (currentConversationId state)
        (isLoading state) (isTyping state) payload
  | SET_CONVERSATIONS payload =>
      mkChatState payload (currentConversationId state)
        (isLoading state) (isTyping state) (error state)
  | ADD_CONVERSATION payload =>
      mkChatState (payload :: conversations state) (Some (id payload))
        (isLoading state) (isTyping state) (error state)
  | UPDATE_CONVERSATION payload =>
      mkChatState
        (map (fun conv =>
                if bool_decide (id conv = id payload) then payload else conv)
             (conversations state))
        (currentConversationId state)
        (isLoading state) (isTyping state) (error state)
  | DELETE_CONVERSATION payload =>
      mkChatState
        (filter (fun conv => id conv ≠ payload) (conversations state))
        (if bool_decide (currentConversationId state = Some payload)
         then None else currentConversationId state)
        (isLoading state) (isTyping state) (error state)
  | SET_CURRENT_CONVERSATION payload =>
      mkChatState (conversations state) payload
        (isLoading state) (isTyping state) (error state)
  | ADD_MESSAGE conversationId m =>
      mkChatState
        (map (fun conv =>
                if bool_decide (id conv = conversationId)
                then updateConversationWithMessage now conv m
                else conv)
             (conversations state))
        (currentConversationId state)
        (isLoading state) (isTyping state) (error state)
  end.

(** [state.conversations.find(conv => conv.id === state.currentConversationId)
    || null] *)
Definition currentConversation (state : ChatState) : option Conversation :=
  find (fun conv => bool_decide (Some (id conv) = currentConversationId state))
       (conversations state).

(** ** The provider: a store, the storage, the clock and the calls made *)

Inductive Event :=
| GetConversationsCall
| SendMessageCall (request : SendMessageRequest)
| DeleteConversationCall (conversationId : string)
| StorageGetItem (key : string)
| StorageSetItem (key : string)
| StorageRemoveItem (key : string).

(** How an awaited call of [apiService] settles. *)
Inductive Settled (T : Type) :=
| Resolved (response : ApiResponse T)
| Rejected.
Arguments Resolved {T} _.
Arguments Rejected {T}.

Record World := mkWorld {
  store : ChatState;
  storage : Medium;
  clock : Date;
  trace : list Event
}.

(** Computations of the provider: state passing over the world. *)
Definition M (A : Type) : Type := World -> A * World.

#[global] Instance M_ret : MRet M := fun A (a : A) w => (a, w).
#[global] Instance M_bind : MBind M :=
  fun A B (f : A -> M B) (c : M A) w => let '(a, w') := c w in f a w'.

Definition exec {A} (c : M A) (w : World) : World := (c w).2.

Definition dispatch (action : ChatAction) : M unit := fun w =>
  (tt, mkWorld (chatReducer (clock w) (store w) action)
               (storage w) (clock w) (trace w)).

Definition emit (e : Event) : M unit := fun w =>
  (tt, mkWorld (store w) (storage w) (clock w) (trace w ++ [e])).

Definition newDate : M Date := fun w => (clock w, w).

Definition getState : M ChatState := fun w => (store w, w).

Definition readStorage {A} (f : Medium -> A) : M A := fun w =>
  (f (storage w), w).

Definition writeStorage (f : Medium -> Medium) : M unit := fun w =>
  (tt, mkWorld (store w) (f (storage w)) (clock w) (trace w)).

(** [await] of a call that was made: the computation goes on at the
    instant [resumed] with what the call settled to. *)
Definition await {T} (resumed : Date) (outcome : Settled T)
    : M (Settled T) := fun w =>
  (outcome, mkWorld (store w) (storage w) resumed (trace w)).

Definition skip : M unit := mret tt.

Module ChatProvider.

(** [loadConversations], up to its [await]. *)
Definition loadConversations_begin : M unit :=
  dispatch (SET_LOADING true);;
  dispatch (SET_ERROR None);;
  emit GetConversationsCall.

(** [loadConversations], from the [await] on. *)
Definition loadConversations_settle (resumed : Date)
    (outcome : Settled (list Conversation)) : M unit :=
  settled ← await resumed outcome;
  match settled with
  | Resolved response =>
      if success response then
        match data response with
        | Some conversations =>
            dispatch (SET_CONVERSATIONS (limitConversations conversations))
        | None => dispatch (SET_ERROR (Some "Failed to load conversations"))
        end
      else
        dispatch (SET_ERROR (Some (JS.or_else (message response)
                                     "Failed to load conversations")))
  | Rejected => dispatch (SET_ERROR (Some "Failed to load conversations"))
  end;;
  dispatch (SET_LOADING false).

Definition loadConversations (resumed : Date)
    (outcome : Settled (list Conversation)) : M unit :=
  loadConversations_begin;;
  loadConversations_settle resumed outcome.

Definition loadCurrentConversation : M unit :=
  emit (StorageGetItem STORAGE_KEYS.CURRENT_CONVERSATION);;
  savedId ← readStorage storageUtils.loadCurrentConversationId;
  if JS.truthy savedId then dispatch (SET_CURRENT_CONVERSATION savedId)
  else skip.

(** The effect run on mount: [loadConversations()] runs up to its [await],
    [loadCurrentConversation()] runs, and the load settles later. *)
Definition mount (resumed : Date) (outcome : Settled (list Conversation))
    : M unit :=
  loadConversations_begin;;
  loadCurrentConversation;;
  loadConversations_settle resumed outcome.

Definition sendMessage_request (state : ChatState) (text : string)
    (mode : ChatMode) : SendMessageRequest :=
  {| req_message := text;
     req_conversationId :=
       if JS.truthy (currentConversationId state)
       then currentConversationId state else None;
     req_mode := mode |}.

(** [sendMessage], up to its [await].  [state] is the state of the render
    the function closes over and [rid] what [generateId()] returns. *)
Definition sendMessage_begin (state : ChatState) (rid : string)
    (text : string) (mode : ChatMode) : M unit :=
  dispatch (SET_ERROR None);;
  now ← newDate;
  let userMessage := createMessage rid now text user in
  match currentConversationId state with
  | Some current =>
      if JS.truthy (currentConversationId state)
      then dispatch (ADD_MESSAGE current userMessage)
      else skip
  | None => skip
  end;;
  dispatch (SET_TYPING true);;
  emit (SendMessageCall (sendMessage_request state text mode)).

(** [sendMessage], from the [await] on. *)
Definition sendMessage_settle (state : ChatState) (resumed : Date)
    (outcome : Settled SendMessageResponse) : M unit :=
  settled ← await resumed outcome;
  match settled with
  | Resolved response =>
      if success response then
        match data response with
        | Some (mkSendMessageResponse aiMessage conversationId) =>
            (if negb (JS.truthy (currentConversationId state))
             then dispatch (SET_CURRENT_CONVERSATION (Some conversationId))
             else skip);;
            dispatch (ADD_MESSAGE conversationId aiMessage)
        | None => dispatch (SET_ERROR (Some "Failed to send message"))
        end
      else
        dispatch (SET_ERROR (Some (JS.or_else (message response)
                                     "Failed to send message")))
  | Rejected => dispatch (SET_ERROR (Some "Failed to send message"))
  end;;
  dispatch (SET_TYPING false).

Definition sendMessage (state : ChatState) (rid : string) (text : string)
    (mode : ChatMode) (resumed : Date)
    (outcome : Settled SendMessageResponse) : M unit :=
  sendMessage_begin state rid text mode;;
  sendMessage_settle state resumed outcome.

Definition createNewConversation : M string :=
  now ← newDate;
  let newConversation :=
    {| id := "conv-" +:+ pretty now;
       title := "New Conversation";
       messages := [];
       createdAt := now;
       updatedAt := now;
       mode := Some normal |} in
  dispatch (ADD_CONVERSATION newConversation);;
  mret (id newConversation).

Definition selectConversation (i : string) : M unit :=
  dispatch (SET_CURRENT_CONVERSATION (Some i)).

Definition deleteConversation (i : string) (resumed : Date)
    (outcome : Settled unit) : M unit :=
  dispatch (SET_ERROR None);;
  emit (DeleteConversationCall i);;
  settled ← await resumed outcome;
  match settled with
  | Resolved response =>
      if success response then dispatch (DELETE_CONVERSATION i)
      else dispatch (SET_ERROR (Some (JS.or_else (message response)
                                        "Failed to delete conversation")))
  | Rejected => dispatch (SET_ERROR (Some "Failed to delete conversation"))
  end.

Definition clearError : M unit := dispatch (SET_ERROR None).

(** The two effects that save to storage after a change of the state. *)
Definition saveEffects : M unit :=
  state ← getState;
  (if 0 <? Z.of_nat (length (conversations state))
   then emit (StorageSetItem STORAGE_KEYS.CONVERSATIONS);;
        writeStorage (fun m =>
          storageUtils.saveConversations m (conversations state))
   else skip);;
  emit (if JS.truthy (currentConversationId state)
        then StorageSetItem STORAGE_KEYS.CURRENT_CONVERSATION
        else StorageRemoveItem STORAGE_KEYS.CURRENT_CONVERSATION);;
  writeStorage (fun m =>
    storageUtils.saveCurrentConversationId m (currentConversationId state)).

End ChatProvider.

(** ** [src/pages/ChatPage.tsx] *)

Module ChatPage.

(** The effect [if (!currentConversation) createNewConversation()]. *)
Definition openConversationEffect : M unit :=
  state ← getState;
  match currentConversation state with
  | Some _ => skip
  | None => ChatProvider.createNewConversation;; skip
  end.

End ChatPage.

(** ** [src/services/storage.ts]: the storage kept in memory *)

Module MemoryStorageService.

(** The [Map] of the service: the values themselves, not their JSON. *)
Definition getItem (storage : gmap string value) (key : string) : value :=
  match storage !! key with
  | Some v => if truthy v then v else VNull
  | None => VNull
  end.

Definition setItem (storage : gmap string value) (key : string) (v : value)
    : gmap string value :=
  <[key := v]> storage.

Definition removeItem (storage : gmap string value) (key : string)
    : gmap string value :=
  delete key storage.

Definition clear (storage : gmap string value) : gmap string value := ∅.

End MemoryStorageService.

(** ** [src/contexts/UIContext.tsx] *)

Inductive Page := chat | settings.
Inductive Theme := light | dark.
Inductive Language := en | he.

Record UIState := mkUIState {
  sidebarOpen : bool;
  currentPage : Page;
  theme : Theme;
  language : Language;
  isMobile : bool
}.

(** [Partial<UIState>]: [None] is a property that is absent. *)
Record PartialUIState := mkPartialUIState {
  p_sidebarOpen : option bool;
  p_currentPage : option Page;
  p_theme : option Theme;
  p_language : option Language;
  p_isMobile : option bool
}.

Inductive UIAction :=
| TOGGLE_SIDEBAR
| SET_SIDEBAR_OPEN (payload : bool)
| SET_CURRENT_PAGE (payload : Page)
| SET_THEME (payload : Theme)
| SET_LANGUAGE (payload : Language)
| SET_IS_MOBILE (payload : bool)
| LOAD_SAVED_STATE (payload : PartialUIState).

Definition uiReducer (state : UIState) (action : UIAction) : UIState :=
  match action with
  | TOGGLE_SIDEBAR =>
      mkUIState (negb (sidebarOpen state)) (currentPage state) (theme state)
        (language state) (isMobile state)
  | SET_SIDEBAR_OPEN payload =>
      mkUIState payload (currentPage state) (theme state)
        (language state) (isMobile state)
  | SET_CURRENT_PAGE payload =>
      mkUIState (sidebarOpen state) payload (theme state)
        (language state) (isMobile state)
  | SET_THEME payload =>
      mkUIState (sidebarOpen state) (currentPage state) payload
        (language state) (isMobile state)
  | SET_LANGUAGE payload =>
      mkUIState (sidebarOpen state) (currentPage state) (theme state)
        payload (isMobile state)
  | SET_IS_MOBILE payload =>
      mkUIState (sidebarOpen state) (currentPage state) (theme state)
        (language state) payload
  | LOAD_SAVED_STATE payload =>
      mkUIState
        (default (sidebarOpen state) (p_sidebarOpen payload))
        (default (currentPage state) (p_currentPage payload))
        (default (theme state) (p_theme payload))
        (default (language state) (p_language payload))
        (default (isMobile state) (p_isMobile payload))
  end.

Module UIProvider.

(** The initial state: [mobile] is what [isMobile()] answers. *)
Definition initialState (mobile : bool) : UIState :=
  mkUIState (negb mobile) chat light en mobile.

(** The actions are reduced in the order they are dispatched. *)
Definition dispatchAll (state : UIState) (actions : list UIAction) : UIState :=
  foldl uiReducer state actions.

(** [handleResize]: [state] is the state the handler closes over and
    [mobile] what [isMobile()] answers. *)
Definition handleResize (state : UIState) (mobile : bool) : list UIAction :=
  if negb (bool_decide (mobile = isMobile state)) then
    SET_IS_MOBILE mobile
    :: (if mobile && sidebarOpen state then [SET_SIDEBAR_OPEN false] else [])
  else [].

Definition toggleSidebar : list UIAction := [TOGGLE_SIDEBAR].

Definition setSidebarOpen (open : bool) : list UIAction :=
  [SET_SIDEBAR_OPEN open].

Definition setCurrentPage (state : UIState) (page : Page) : list UIAction :=
  SET_CURRENT_PAGE page
  :: (if isMobile state then [SET_SIDEBAR_OPEN false] else []).

Definition setTheme (t : Theme) : list UIAction := [SET_THEME t].

Definition setLanguage (l : Language) : list UIAction := [SET_LANGUAGE l].

Definition of_Page (p : Page) : value :=
  VStr match p with chat => "chat" | settings => "settings" end.

Definition of_Theme (t : Theme) : string :=
  match t with light => "light" | dark => "dark" end.

Definition of_Language (l : Language) : string :=
  match l with en => "en" | he => "he" end.

(** The object the saving effect writes:
    [{ sidebarOpen, currentPage, theme, language, isMobile }]. *)
Definition of_UIState (state : UIState) : value :=
  VObj [("sidebarOpen", VBool (sidebarOpen state));
        ("currentPage", of_Page (currentPage state));
        ("theme", VStr (of_Theme (theme state)));
        ("language", VStr (of_Language (language state)));
        ("isMobile", VBool (isMobile state))].

(** The three effects that save after a change of the state. *)
Definition saveEffects (state : UIState) (m : Medium) : Medium :=
  storageUtils.saveLanguage
    (storageUtils.saveTheme
       (storageUtils.saveUIState m (of_UIState state))
       (of_Theme (theme state)))
    (of_Language (language state)).

End UIProvider.

(** ** [src/hooks/useChat.ts] *)

Module useChat.

Definition isConversationActive (state : ChatState) (conversationId : string)
    : bool :=
  match currentConversation state with
  | Some c => bool_decide (id c = conversationId)
  | None => false
  end.

Definition getLastMessage (state : ChatState) (conversationId : string)
    : option Message :=
  match find (fun conv => bool_decide (id conv = conversationId))
             (conversations state) with
  | Some conversation => last (messages conversation)
  | None => None
  end.

Definition getConversationPreview (state : ChatState)
    (conversationId : string) (maxLength : Z) : string :=
  match getLastMessage state conversationId with
  | None => "No messages yet"
  | Some lastMessage =>
      if JS.length (content lastMessage) <=? maxLength
      then content lastMessage
      else JS.substring0 (content lastMessage) maxLength +:+ "..."
  end.

Definition formatConversationTime (toLocaleDateString : Date -> string)
    (now : Date) (state : ChatState) (conversationId : string) : string :=
  match find (fun conv => bool_decide (id conv = conversationId))
             (conversations state) with
  | None => EmptyString
  | Some conversation =>
      let diff := now - updatedAt conversation in
      let minutes := diff / 60000 in
      let hours := diff / 3600000 in
      let days := diff / 86400000 in
      if minutes <? 1 then "Just now"
      else if minutes <? 60 then pretty minutes +:+ "m ago"
      else if hours <? 24 then pretty hours +:+ "h ago"
      else if days <? 7 then pretty days +:+ "d ago"
      else toLocaleDateString (updatedAt conversation)
  end.

Definition getConversationCount (state : ChatState) : nat :=
  length (conversations state).

Definition hasConversations (state : ChatState) : bool :=
  bool_decide (0 < length (conversations state))%nat.

Definition hasMessages (state : ChatState) : bool :=
  match currentConversation state with
  | Some c => bool_decide (0 < length (messages c))%nat
  | None => false
  end.

Definition getMessageCount (state : ChatState) : nat :=
  match currentConversation state with
  | Some c => length (messages c)
  | None => 0%nat
  end.

Definition isChatReady (state : ChatState) : bool :=
  negb (isLoading state) && negb (JS.truthy (error state)).

Definition isChatBusy (state : ChatState) : bool :=
  isLoading state || isTyping state.

End useChat.

(** ** [src/components/input/MessageInput.tsx] *)

Module MessageInput.

(** [handleSend]: what is passed to [onSendMessage], if anything, and the
    text the input holds afterwards. *)
Definition handleSend (message : string) (isLoading : bool)
    (selectedMode : ChatMode) : option (string * ChatMode) * string :=
  if negb (bool_decide (JS.trim message = EmptyString)) && negb isLoading
  then (Some (JS.trim message, selectedMode), EmptyString)
  else (None, message).

Definition canSend (message : string) (isLoading : bool) : bool :=
  (0 <? JS.length (JS.trim message)) && negb isLoading.

Definition remainingChars (maxLength : Z) (message : string) : Z :=
  maxLength - JS.length message.

End MessageInput.

(** ** [src/lib/mockApi.ts] *)

Module MockApi.

Definition nl : string := String (Ascii.ascii_of_nat 10) EmptyString.

Definition responses_normal : list string :=
  ["That's an interesting question! Let me help you with that.";
   "I understand what you're asking. Here's what I think:";
   "Great question! Here's my perspective on this topic:";
   "I'd be happy to help you with that. Let me explain:";
   "That's a common question. Here's what you should know:"].

Definition responses_deepthink : list string :=
  ["Let me think deeply about this question and provide you with a comprehensive analysis:";
   "This is a complex topic that requires careful consideration. Here's my detailed analysis:";
   "I'll analyze this from multiple angles to give you a thorough understanding:";
   "Let me break this down systematically and explore all aspects:";
   "This deserves a deep dive. Here's my comprehensive response:"].

Definition responses_research : list string :=
  ["Let me research this topic thoroughly and provide you with detailed information:";
   "I'll gather comprehensive information about this subject for you:";
   "This requires extensive research. Here's what I've found:";
   "Let me provide you with a well-researched and detailed response:";
   "I'll give you a thorough, research-backed answer to your question:"].

Definition aboutReact : string :=
  String.concat ""
    [nl;
     nl;
     "React is a powerful JavaScript library for building user interfaces. It uses a component-based architecture and a virtual DOM for efficient rendering. Here are some key concepts:";
     nl;
     nl;
     "- **Components**: Reusable pieces of UI";
     nl;
     "- **Props**: Data passed to components";
     nl;
     "- **State**: Internal component data";
     nl;
     "- **Hooks**: Functions that let you use state and lifecycle features";
     nl;
     "- **JSX**: Syntax extension for JavaScript";
     nl;
     nl;
     "Would you like me to elaborate on any of these concepts?"].

Definition aboutTypeScript : string :=
  String.concat ""
    [nl;
     nl;
     "TypeScript is a strongly typed superset of JavaScript that adds static type checking. Here are its main benefits:";
     nl;
     nl;
     "- **Type Safety**: Catch errors at compile time";
     nl;
     "- **Better IDE Support**: Enhanced autocomplete and refactoring";
     nl;
     "- **Documentation**: Types serve as inline documentation";
     nl;
     "- **Scalability**: Easier to maintain large codebases";
     nl;
     "- **Modern Features**: Access to latest ECMAScript features";
     nl;
     nl;
     "TypeScript compiles to plain JavaScript and is widely used in modern web development."].

Definition aboutCSS : string :=
  String.concat ""
    [nl;
     nl;
     "CSS (Cascading Style Sheets) is the language used to style web pages. Here are some modern CSS techniques:";
     nl;
     nl;
     "- **Flexbox**: For one-dimensional layouts";
     nl;
     "- **CSS Grid**: For two-dimensional layouts";
     nl;
     "- **Custom Properties**: For dynamic theming";
     nl;
     "- **CSS Modules**: For component-scoped styles";
     nl;
     "- **PostCSS**: For CSS preprocessing and optimization";
     nl;
     nl;
     "Modern CSS frameworks like Tailwind CSS provide utility classes for rapid development."].

Definition aboutNothing : string :=
  String.concat ""
    [nl;
     nl;
     "This is a mock response from the DBAAS Chat frontend. In a real implementation, this would be replaced with actual AI responses from your backend API.";
     nl;
     nl;
     "**TODO**: Replace this mock response with actual API call to your backend service.";
     nl;
     nl;
     "For now, this demonstrates the chat interface functionality with different response modes (Normal, DeepThink, Research)."].

(** [getMockResponse]: [pick] is [Math.floor(Math.random() * 5)]. *)
Definition getMockResponse (pick : nat) (userMessage : string)
    (mode : ChatMode) : string :=
  let modeResponses :=
    match mode with
    | normal => responses_normal
    | deepthink => responses_deepthink
    | research => responses_research
    end in
  let randomResponse := default "undefined" (modeResponses !! pick) in
  if JS.includes (JS.toLowerCase userMessage) "react"
  then randomResponse +:+ aboutReact
  else if JS.includes (JS.toLowerCase userMessage) "typescript"
  then randomResponse +:+ aboutTypeScript
  else if JS.includes (JS.toLowerCase userMessage) "css"
          || JS.includes (JS.toLowerCase userMessage) "styling"
  then randomResponse +:+ aboutCSS
  else randomResponse +:+ aboutNothing.

(** The conversations the mock backend holds.  An object it changes in
    place is the first of the list with the id searched for. *)
Definition Backend := list Conversation.

Fixpoint changeFirst (i : string) (f : Conversation -> Conversation)
    (cs : Backend) : Backend :=
  match cs with
  | [] => []
  | c :: rest =>
      if bool_decide (id c = i) then f c :: rest
      else c :: changeFirst i f rest
  end.

Definition findById (i : option string) (cs : Backend)
    : option Conversation :=
  find (fun conv => bool_decide (Some (id conv) = i)) cs.

Definition getConversations (cs : Backend)
    : ApiResponse (list Conversation) :=
  mkApiResponse (Some cs) true (Some "Conversations loaded successfully").

Definition getConversation (cs : Backend) (i : string)
    : ApiResponse Conversation :=
  match findById (Some i) cs with
  | None => mkApiResponse None false (Some "Conversation not found")
  | Some conversation =>
      mkApiResponse (Some conversation) true
        (Some "Conversation loaded successfully")
  end.

(** [sendMessage]: [uid], [cid] and [aid] are what [generateId()] returns
    for the user message, a new conversation and the reply, [pick] the
    random choice of the reply, [now] what [new Date()] reads. *)
Definition sendMessage (cs : Backend) (request : SendMessageRequest)
    (uid cid aid : string) (pick : nat) (now : Date)
    : ApiResponse SendMessageResponse * Backend :=
  let userMessage := createMessage uid now (req_message request) user in
  let aiResponse :=
    getMockResponse pick (req_message request) (req_mode request) in
  let aiMessage := createMessage aid now aiResponse assistant in
  let push conversation :=
    mkConversation (id conversation) (title conversation)
      (messages conversation ++ [userMessage; aiMessage])
      (createdAt conversation) now (mode conversation) in
  match findById (req_conversationId request) cs with
  | Some conversation =>
      (mkApiResponse
         (Some (mkSendMessageResponse aiMessage (id conversation))) true
         (Some "Message sent successfully"),
       changeFirst (id conversation) push cs)
  | None =>
      let conversation :=
        mkConversation cid
          (if 50 <? JS.length (req_message request)
           then JS.substring0 (req_message request) 50 +:+ "..."
           else req_message request)
          [] now now (Some (req_mode request)) in
      (mkApiResponse
         (Some (mkSendMessageResponse aiMessage cid)) true
         (Some "Message sent successfully"),
       push conversation :: cs)
  end.

Definition createConversation (cs : Backend) (cid : string) (now : Date)
    (title : option string) : ApiResponse Conversation * Backend :=
  let conversation :=
    mkConversation cid (JS.or_else title "New Conversation") [] now now
      (Some normal) in
  (mkApiResponse (Some conversation) true
     (Some "Conversation created successfully"),
   conversation :: cs).

(** [findIndex] and [splice(index, 1)]: the first conversation of the id
    is taken out. *)
Fixpoint removeFirst (i : string) (cs : Backend) : option Backend :=
  match cs with
  | [] => None
  | c :: rest =>
      if bool_decide (id c = i) then Some rest
      else cons c <$> removeFirst i rest
  end.

Definition deleteConversation (cs : Backend) (i : string)
    : ApiResponse unit * Backend :=
  match removeFirst i cs with
  | None => (mkApiResponse None false (Some "Conversation not found"), cs)
  | Some rest =>
      (mkApiResponse None true (Some "Conversation deleted successfully"),
       rest)
  end.

End MockApi.

(** ** [src/services/api.ts] *)

Module ApiService.

(** Each method awaits the mock backend inside a [try]; the mock throws
    nothing, so the call resolves with its answer. *)
Definition getConversations (cs : MockApi.Backend)
    : Settled (list Conversation) :=
  Resolved (MockApi.getConversations cs).

Definition sendMessage (cs : MockApi.Backend) (request : SendMessageRequest)
    (uid cid aid : string) (pick : nat) (now : Date)
    : Settled SendMessageResponse * MockApi.Backend :=
  let '(response, cs') := MockApi.sendMessage cs request uid cid aid pick now in
  (Resolved response, cs').

Definition deleteConversation (cs : MockApi.Backend) (i : string)
    : Settled unit * MockApi.Backend :=
  let '(response, cs') := MockApi.deleteConversation cs i in
  (Resolved response, cs').

End ApiService.

(** ** The provider run against the mock backend *)

Record Session := mkSession {
  world : World;
  backend : MockApi.Backend
}.

Module Session.

(** [loadConversations()] and [loadCurrentConversation()] on mount. *)
Definition mount (resumed : Date) (s : Session) : Session :=
  mkSession
    (exec (ChatProvider.mount resumed
             (ApiService.getConversations (backend s))) (world s))
    (backend s).

(** A whole [sendMessage]: the mock backend answers at [resumed]. *)
Definition sendMessage (rid uid cid aid : string) (pick : nat)
    (message : string) (mode : ChatMode) (resumed : Date) (s : Session)
    : Session :=
  let state := store (world s) in
  let sent :=
    exec (ChatProvider.sendMessage_begin state rid message mode) (world s) in
  let '(outcome, cs) :=
    ApiService.sendMessage (backend s)
      (ChatProvider.sendMessage_request state message mode)
      uid cid aid pick resumed in
  mkSession (exec (ChatProvider.sendMessage_settle state resumed outcome) sent)
            cs.

(** A whole [deleteConversation]. *)
Definition deleteConversation (i : string) (resumed : Date) (s : Session)
    : Session :=
  let '(outcome, cs) := ApiService.deleteConversation (backend s) i in
  mkSession (exec (ChatProvider.deleteConversation i resumed outcome)
               (world s))
            cs.

Definition createNewConversation (s : Session) : Session :=
  mkSession (exec ChatProvider.createNewConversation (world s)) (backend s).

End Session.

(** ** Vocabulary of the properties *)

(** The environment lets time pass. *)
Definition elapse (t : Date) : M unit := fun w =>
  (tt, mkWorld (store w) (storage w) t (trace w)).

(** A call that did not succeed: it threw, or it answered [success: false]. *)
Definition unsuccessful {T} (outcome : Settled T) : bool :=
  match outcome with
  | Rejected => true
  | Resolved response => negb (success response)
  end.

(** The failure's message of a delete that did not succeed: the message of
    the answer when it has one that is not empty, and the text of
    [deleteConversation] itself otherwise and when the call threw. *)
Definition deleteFailure (outcome : Settled unit) : string :=
  match outcome with
  | Rejected => "Failed to delete conversation"
  | Resolved response =>
      match message response with
      | Some why =>
          if bool_decide (why = EmptyString)
          then "Failed to delete conversation" else why
      | None => "Failed to delete conversation"
      end
  end.

(** The text [sendMessage] puts in [error] when the send fails so. *)
Definition sendFailure {T} (outcome : Settled T) : string :=
  match outcome with
  | Rejected => "Failed to send message"
  | Resolved response =>
      JS.or_else (message response) "Failed to send message"
  end.

Definition ids (state : ChatState) : list string :=
  map id (conversations state).

(** The selection is absent or names a conversation of the collection. *)
Definition selection_valid (state : ChatState) : Prop :=
  match currentConversationId state with
  | None => True
  | Some i => i ∈ ids state
  end.

Definition total_messages (cs : list Conversation) : nat :=
  sum_list (map (fun c => length (messages c)) cs).

(** [a] was updated no earlier than [b]. *)
Definition moreRecent (a b : Conversation) : Prop :=
  updatedAt b <= updatedAt a.

Definition mostRecentlyUpdated (cs : list Conversation)
    : option Conversation :=
  head (sortConversationsByDate cs).

(** A local storage that works and takes every write. *)
Definition workingStorage (content : gmap string text) : Medium :=
  mkMedium true (fun _ _ => true) content.

Definition worldOf (state : ChatState) : World :=
  mkWorld state (workingStorage ∅) 1000 [].

(** An empty conversation as [createNewConversation] makes them. *)
Definition emptyConversation (i : string) (t : Date) : Conversation :=
  mkConversation i "New Conversation" [] t t (Some normal).

Definition ok {T} (d : T) : Settled T :=
  Resolved (mkApiResponse (Some d) true (Some "done")).

Definition refused {T} (why : string) : Settled T :=
  Resolved (mkApiResponse None false (Some why)).

(** What [storageUtils.loadConversations] gives back for a message and a
    conversation that were saved: dates as ISO-8601 strings, absent
    properties left out. *)
Definition persisted_Message (m : Message) : value :=
  VObj ([("id", VStr (msg_id m));
         ("content", VStr (content m));
         ("role", of_Role (role m));
         ("timestamp", VStr (toISOString (timestamp m)))]
        ++ from_option (fun b => [("isTyping", VBool b)]) [] (msg_isTyping m)).

Definition persisted_Conversation (c : Conversation) : value :=
  VObj ([("id", VStr (id c));
         ("title", VStr (title c));
         ("messages", VArr (map persisted_Message (messages c)));
         ("createdAt", VStr (toISOString (createdAt c)));
         ("updatedAt", VStr (toISOString (updatedAt c)))]
        ++ from_option (fun m => [("mode", of_ChatMode (Some m))]) [] (mode c)).

(** *** The claims of the specification, in its words *)

Module Spec.

(** After a delete the id is gone, and a deleted selection is replaced by
    the most recently updated conversation left, or by a fresh empty one. *)
Definition delete_reselects (before after : ChatState) (i : string) : Prop :=
  (i ∉ ids after) ∧
  (currentConversationId before = Some i ->
   match mostRecentlyUpdated
           (filter (fun c => id c ≠ i) (conversations before)) with
   | Some c => currentConversationId after = Some (id c)
   | None => ∃ c, conversations after = [c] ∧ messages c = [] ∧
                  currentConversationId after = Some (id c)
   end).

(** A send without a selection creates a conversation, selects it, and
    leaves two messages in it. *)
Definition send_creates_conversation (before after : ChatState) : Prop :=
  ∃ c, c ∈ conversations after ∧ (id c ∉ ids before) ∧
       currentConversationId after = Some (id c) ∧
       length (messages c) = 2%nat.


(** The store holds one message more, and a conversation ends with a
    user message of the text sent. *)
Definition one_user_message_appended (before after : ChatState)
    (text : string) : Prop :=
  total_messages (conversations after)
    = S (total_messages (conversations before)) ∧
  ∃ c m, c ∈ conversations after ∧ last (messages c) = Some m ∧
         role m = user ∧ content m = JS.trim text.

(** A failed backend delete still removes the conversation locally. *)
Definition delete_is_local_first (after : ChatState) (i : string) : Prop :=
  is_Some (error after) ∧ (i ∉ ids after).


(** What is restored is what was saved. *)
Definition round_trip (m : Medium) (cs : list Conversation) : Prop :=
  storageUtils.loadConversations (storageUtils.saveConversations m cs)
  = of_Conversations cs.

(** The initial load reads the persisted conversations, and asks the
    backend only when there are none. *)
Definition load_prefers_storage (before after : World) : Prop :=
  StorageGetItem STORAGE_KEYS.CONVERSATIONS ∈ trace after ∧
  (GetConversationsCall ∈ trace after ->
   storageUtils.loadConversations (storage before) = VArr []).

(** Selecting an id that is not in the collection changes nothing. *)
Definition unknown_selection_is_noop (before after : ChatState)
    (i : string) : Prop :=
  i ∉ ids before -> after = before.

End Spec.

(** *** The runs of the store *)

(** One step of the store: an operation of the provider, one half of a
    send issued while a conversation is selected, the effect of the chat
    page, or time passing.  Selection is by an id the collection shows. *)
Inductive step : World -> World -> Prop :=
| step_elapse w t :
    step w (exec (elapse t) w)
| step_create w :
    step w (exec ChatProvider.createNewConversation w)
| step_select w i :
    i ∈ ids (store w) ->
    step w (exec (ChatProvider.selectConversation i) w)
| step_delete w i resumed outcome :
    step w (exec (ChatProvider.deleteConversation i resumed outcome) w)
| step_clearError w :
    step w (exec ChatProvider.clearError w)
| step_send_begin w state rid text mode :
    step w (exec (ChatProvider.sendMessage_begin state rid text mode) w)
| step_send_settle w state resumed outcome :
    JS.truthy (currentConversationId state) = true ->
    step w (exec (ChatProvider.sendMessage_settle state resumed outcome) w)
| step_page w :
    step w (exec ChatPage.openConversationEffect w)
| step_save w :
    step w (exec ChatProvider.saveEffects w).

Inductive reachable : World -> Prop :=
| reachable_init m t : reachable (mkWorld initialState m t [])
| reachable_step w w' : reachable w -> step w w' -> reachable w'.


(** *** Sample states *)

Definition stateOf (cs : list Conversation) (current : option string)
    : ChatState :=
  mkChatState cs current false false None.

(** One conversation, selected. *)
Definition oneConversation : ChatState :=
  stateOf [emptyConversation "conv-1" 1] (Some "conv-1").

(** Two conversations, the more recent one selected. *)
Definition twoConversations : ChatState :=
  stateOf [emptyConversation "conv-2" 2; emptyConversation "conv-1" 1]
          (Some "conv-2").

(** One conversation, none selected. *)
Definition noSelection : ChatState :=
  stateOf [emptyConversation "conv-1" 1] None.

(** An answer of the backend to a send that named no conversation. *)
Definition aiReply : SendMessageResponse :=
  mkSendMessageResponse
    (mkMessage "m2" "Hello!" assistant 2000 (Some false)) "srv-1".


(** What an earlier session left in storage: a conversation created
    locally, and its id as the selection. *)
Definition earlierSession : Medium :=
  storageUtils.saveCurrentConversationId
    (storageUtils.saveConversations (workingStorage ∅)
       [emptyConversation "conv-7" 7])
    (Some "conv-7").

(** What the backend lists. *)
Definition backendList : list Conversation := [emptyConversation "srv-1" 5].

(** *** Further vocabulary *)

(** A string is empty or begins with a character that is not white space. *)
Definition clean_start (s : string) : Prop :=
  match s with
  | EmptyString => True
  | String c _ => JS.is_white_space c = false
  end.

(** A conversation without the date of its last update. *)
Definition undated (c : Conversation)
    : string * string * list Message * Date * option ChatMode :=
  (id c, title c, messages c, createdAt c, mode c).

(** A run of appends to one conversation: each message with the instant
    at which it is appended. *)
Definition appendAll (c : Conversation) (tms : list (Date * Message))
    : Conversation :=
  foldl (fun conv tm => updateConversationWithMessage tm.1 conv tm.2) c tms.

(** The same run, dispatched to the store as [ADD_MESSAGE] actions. *)
Definition dispatchAppends (i : string) (state : ChatState)
    (tms : list (Date * Message)) : ChatState :=
  foldl (fun st tm => chatReducer tm.1 st (ADD_MESSAGE i tm.2)) state tms.

(** A value that JSON writes and reads back as it is: no [undefined] and
    no [Date] anywhere in it, and for numbers the integers up to
    [Number.MAX_SAFE_INTEGER] in size. *)
Fixpoint plain (v : value) : bool :=
  match v with
  | VUndefined | VDate _ => false
  | VNum z => Z.abs z <=? 9007199254740991
  | VNull | VBool _ | VStr _ => true
  | VArr l => forallb plain l
  | VObj fields => forallb (fun kv => plain kv.2) fields
  end.

(** The first conversation of the collection with the id [i]. *)
Definition conversationOf (state : ChatState) (i : string)
    : option Conversation :=
  find (fun conv => bool_decide (Some (id conv) = Some i))
       (conversations state).

(** A local storage that is available and refuses no write. *)
Definition works (m : Medium) : Prop :=
  available m = true ∧ ∀ key t, accepts m key t = true.

(** * Properties *)

(** ** Running the provider's computations *)

Ltac run :=
  unfold ChatProvider.sendMessage, ChatProvider.sendMessage_begin,
    ChatProvider.sendMessage_settle, ChatProvider.deleteConversation,
    ChatProvider.createNewConversation, ChatProvider.selectConversation,
    ChatProvider.clearError, ChatProvider.mount,
    ChatProvider.loadConversations, ChatProvider.loadConversations_begin,
    ChatProvider.loadConversations_settle,
    ChatProvider.loadCurrentConversation, ChatProvider.saveEffects,
    ChatPage.openConversationEffect, exec, elapse,
    dispatch, emit, await, newDate, getState, readStorage, writeStorage,
    skip, mbind, mret, M_bind, M_ret;
  cbn [fst snd store storage clock trace chatReducer conversations
       currentConversationId isLoading isTyping error
       success data message negb].

(** ** Facts on the helpers and the reducer *)

Section Reducer.

Implicit Types (cs : list Conversation) (c : Conversation) (i : string).

Lemma ids_append_message now i m cs :
  map id (map (fun conv => if bool_decide (id conv = i)
                           then updateConversationWithMessage now conv m
                           else conv) cs)
  = map id cs.
Proof.
  induction cs as [|c cs IH]; simpl; [done|].
  rewrite IH. by case_bool_decide.
Qed.

Lemma ids_delete i cs :
  map id (filter (fun conv => id conv ≠ i) cs)
  = filter (fun j => j ≠ i) (map id cs).
Proof.
  induction cs as [|c cs IH]; [done|].
  rewrite filter_cons. simpl. rewrite (filter_cons _ (id c)).
  case_decide; simpl; by rewrite IH.
Qed.

Lemma deleted_id_absent i cs :
  i ∉ map id (filter (fun conv => id conv ≠ i) cs).
Proof.
  rewrite ids_delete. intros [? _]%list_elem_of_filter. done.
Qed.

Lemma find_append_message now i m cs c :
  find (fun conv => bool_decide (Some (id conv) = Some i)) cs = Some c ->
  find (fun conv => bool_decide (Some (id conv) = Some i))
       (map (fun conv => if bool_decide (id conv = i)
                         then updateConversationWithMessage now conv m
                         else conv) cs)
  = Some (updateConversationWithMessage now c m).
Proof.
  induction cs as [|d cs IH]; simpl; [done|].
  destruct (decide (id d = i)) as [E|E].
  - rewrite (bool_decide_eq_true_2 (id d = i)) by done.
    rewrite bool_decide_eq_true_2 by congruence.
    rewrite bool_decide_eq_true_2 by (simpl; congruence). congruence.
  - rewrite (bool_decide_eq_false_2 (id d = i)) by done.
    rewrite !bool_decide_eq_false_2 by congruence. done.
Qed.

Lemma total_messages_other now i m cs :
  i ∉ map id cs ->
  map (fun conv => if bool_decide (id conv = i)
                   then updateConversationWithMessage now conv m
                   else conv) cs = cs.
Proof.
  induction cs as [|c cs IH]; simpl; [done|].
  intros [? ?]%not_elem_of_cons.
  rewrite bool_decide_eq_false_2 by done. by rewrite IH.
Qed.

Lemma total_messages_append now i m cs :
  NoDup (map id cs) -> i ∈ map id cs ->
  total_messages
    (map (fun conv => if bool_decide (id conv = i)
                      then updateConversationWithMessage now conv m
                      else conv) cs)
  = S (total_messages cs).
Proof.
  unfold total_messages.
  induction cs as [|c cs IH]; simpl.
  - by intros _ ?%elem_of_nil.
  - intros [Hc Hcs]%NoDup_cons [->|Hi]%elem_of_cons.
    + rewrite bool_decide_eq_true_2 by done.
      rewrite total_messages_other by done.
      simpl. rewrite length_app. simpl. lia.
    + rewrite bool_decide_eq_false_2 by (intros E; by rewrite E in Hc).
      rewrite IH by done. lia.
Qed.

Lemma updated_conversation_present now i m cs c :
  c ∈ cs -> id c = i ->
  updateConversationWithMessage now c m
  ∈ map (fun conv => if bool_decide (id conv = i)
                     then updateConversationWithMessage now conv m
                     else conv) cs.
Proof.
  intros Hc Hi. apply list_elem_of_In, in_map_iff. exists c.
  rewrite bool_decide_eq_true_2 by done. split; [done|].
  by apply list_elem_of_In.
Qed.

Lemma other_conversation_kept now i m cs c :
  c ∈ cs -> id c ≠ i ->
  c ∈ map (fun conv => if bool_decide (id conv = i)
                       then updateConversationWithMessage now conv m
                       else conv) cs.
Proof.
  intros Hc Hi. apply list_elem_of_In, in_map_iff. exists c.
  rewrite bool_decide_eq_false_2 by done. split; [done|].
  by apply list_elem_of_In.
Qed.

End Reducer.

(** ** Sorting by date *)

Section Sorting.

Lemma insertByDate_perm c cs : insertByDate c cs ≡ₚ c :: cs.
Proof.
  induction cs as [|d cs IH]; simpl; [done|].
  case_match; [done|]. rewrite IH. apply perm_swap.
Qed.

Lemma sortConversationsByDate_perm cs : sortConversationsByDate cs ≡ₚ cs.
Proof.
  induction cs as [|c cs IH]; simpl; [done|].
  rewrite insertByDate_perm. by f_equiv.
Qed.

Lemma insertByDate_sorted c cs :
  StronglySorted moreRecent cs ->
  StronglySorted moreRecent (insertByDate c cs).
Proof.
  induction 1 as [|d cs Hs IH Hd]; simpl.
  - repeat constructor.
  - case_match eqn:E.
    + apply Z.leb_le in E. constructor; [by constructor|].
      constructor; [done|]. eapply Forall_impl; [exact Hd|].
      unfold moreRecent. intros; lia.
    + apply Z.leb_gt in E. constructor; [done|].
      rewrite insertByDate_perm. constructor; [unfold moreRecent; lia|done].
Qed.

Lemma sortConversationsByDate_sorted cs :
  StronglySorted moreRecent (sortConversationsByDate cs).
Proof.
  induction cs; simpl; [constructor|]. by apply insertByDate_sorted.
Qed.


End Sorting.

(** ** Deleting a conversation *)

(** C1, as the specification words it, fails: after the selected
    conversation is deleted the store holds no selection, it does not move
    to the most recently updated conversation left (also not once the chat
    page has reacted), and the store creates nothing when the only
    conversation goes. *)
Lemma C1_delete_does_not_reselect :
  let before := worldOf twoConversations in
  let after :=
    exec (ChatProvider.deleteConversation "conv-2" 2000 (ok tt)) before in
  let only := worldOf oneConversation in
  let emptied :=
    exec (ChatProvider.deleteConversation "conv-1" 2000 (ok tt)) only in
  ¬ Spec.delete_reselects (store before) (store after) "conv-2" ∧
  ¬ Spec.delete_reselects (store before)
      (store (exec ChatPage.openConversationEffect after)) "conv-2" ∧
  ¬ Spec.delete_reselects (store only) (store emptied) "conv-1" ∧
  currentConversationId (store after) = None ∧
  conversations (store emptied) = [].
Proof.
  cbv zeta. split_and!; try reflexivity.
  - intros [_ H]. specialize (H eq_refl). vm_compute in H. discriminate.
  - intros [_ H]. specialize (H eq_refl). vm_compute in H. discriminate.
  - intros [_ H]. specialize (H eq_refl). vm_compute in H.
    destruct H as (c & H & _). discriminate.
Qed.

(** C1, amended: when the backend confirms the delete, the reducer removes
    every conversation of that id and clears the selection if it was the
    deleted one (any other selection stays), so the selection never names
    the deleted id; the chat page's effect then opens a fresh empty
    conversation and selects it, whether or not others remain. *)
Theorem C1_delete_clears_selection
    (w : World) (i : string) (resumed : Date) (d : option unit)
    (msg : option string) :
  let w1 := exec (ChatProvider.deleteConversation i resumed
                    (Resolved (mkApiResponse d true msg))) w in
  let w2 := exec ChatPage.openConversationEffect w1 in
  conversations (store w1)
    = filter (fun c => id c ≠ i) (conversations (store w)) ∧
  (i ∉ ids (store w1)) ∧
  currentConversationId (store w1)
    = (if bool_decide (currentConversationId (store w) = Some i)
       then None else currentConversationId (store w)) ∧
  currentConversationId (store w1) ≠ Some i ∧
  (currentConversationId (store w) = Some i ->
   currentConversationId (store w1) = None ∧
   conversations (store w2)
     = emptyConversation ("conv-" +:+ pretty resumed) resumed
       :: conversations (store w1) ∧
   currentConversationId (store w2) = Some ("conv-" +:+ pretty resumed)).
Proof.
  cbv zeta. run. split_and!.
  - done.
  - apply deleted_id_absent.
  - done.
  - case_bool_decide; [done|]. congruence.
  - intros E. rewrite bool_decide_eq_true_2 by done.
    unfold currentConversation. simpl.
    assert (∀ l : list Conversation, find (fun _ => false) l = None) as ->
      by (induction l; done).
    done.
Qed.

(** ** Sending a message *)

Lemma find_unknown_id cs i :
  i ∉ map id cs ->
  find (fun conv => bool_decide (Some (id conv) = Some i)) cs = None.
Proof.
  induction cs as [|c cs IH]; simpl; [done|].
  intros [? ?]%not_elem_of_cons.
  rewrite bool_decide_eq_false_2 by congruence. auto.
Qed.

Lemma id_of_member (c : Conversation) cs : c ∈ cs -> id c ∈ map id cs.
Proof. intros H. apply list_elem_of_In, in_map, list_elem_of_In, H. Qed.

(** C2: a send issued while nothing is selected adds no conversation.  The
    backend's conversation id becomes the selection although the collection
    has no such conversation, so no current conversation is shown and both
    the user's message and the reply are lost to the store. *)
Theorem C2_send_without_selection_adds_no_conversation
    (w : World) (rid text : string) (mode : ChatMode) (resumed : Date)
    (ai : Message) (cid : string) (msg : option string) :
  JS.truthy (currentConversationId (store w)) = false ->
  cid ∉ ids (store w) ->
  let w' :=
    exec (ChatProvider.sendMessage (store w) rid text mode resumed
            (Resolved (mkApiResponse (Some (mkSendMessageResponse ai cid))
                         true msg))) w in
  conversations (store w') = conversations (store w) ∧
  currentConversationId (store w') = Some cid ∧
  currentConversation (store w') = None ∧
  ¬ Spec.send_creates_conversation (store w) (store w').
Proof.
  intros Hnone Hcid. cbv zeta.
  assert (conversations (store (exec (ChatProvider.sendMessage (store w) rid
            text mode resumed (Resolved (mkApiResponse
              (Some (mkSendMessageResponse ai cid)) true msg))) w))
          = conversations (store w)
          ∧ currentConversationId (store (exec (ChatProvider.sendMessage
              (store w) rid text mode resumed (Resolved (mkApiResponse
                (Some (mkSendMessageResponse ai cid)) true msg))) w))
            = Some cid) as [Hcs Hcur].
  { run. destruct (currentConversationId (store w)) as [cur|] eqn:E.
    - rewrite Hnone. cbn. by rewrite total_messages_other.
    - cbn. by rewrite total_messages_other. }
  split_and!; [done|done| |].
  - unfold currentConversation. rewrite Hcs, Hcur.
    by apply find_unknown_id.
  - intros (c & Hc & Hfresh & _). apply Hfresh.
    rewrite Hcs in Hc. by apply id_of_member.
Qed.

(** C2 at the first send of a session: nothing selected, an empty
    collection, and the backend answers under the id [srv-1]. *)
Lemma C2_send_without_selection_witness :
  let w := worldOf initialState in
  let w' :=
    exec (ChatProvider.sendMessage (store w) "m1" "hello" normal 2000
            (Resolved (mkApiResponse (Some aiReply) true (Some "done")))) w in
  conversations (store w') = [] ∧
  currentConversationId (store w') = Some "srv-1" ∧
  currentConversation (store w') = None ∧
  ¬ Spec.send_creates_conversation (store w) (store w').
Proof.
  apply (C2_send_without_selection_adds_no_conversation
           (worldOf initialState) "m1" "hello" normal 2000
           (mkMessage "m2" "Hello!" assistant 2000 (Some false)) "srv-1"
           (Some "done")).
  - reflexivity.
  - apply not_elem_of_nil.
Defined.

Lemma length_zero_empty (s : string) :
  (JS.length s =? 0) = bool_decide (s = EmptyString).
Proof. by destruct s. Qed.



(** C4, as the specification words it, fails: with no conversation
    selected, a valid text is appended to no conversation before the
    backend is called. *)
Lemma C4_no_append_without_selection :
  let before := worldOf noSelection in
  let after :=
    exec (ChatProvider.sendMessage_begin (store before) "m1" "hello" normal)
         before in
  isValid (validateMessage "hello") = true ∧
  conversations (store after) = conversations (store before) ∧
  ¬ Spec.one_user_message_appended (store before) (store after) "hello".
Proof.
  cbv zeta. split_and!; try reflexivity.
  intros [H _]. vm_compute in H. discriminate.
Qed.

(** C4, amended: when the selection names a conversation of the collection
    and ids are distinct, the part of [sendMessage] that runs before the
    backend answers appends exactly one message to that conversation, of
    role [user] and with the trimmed text, leaves every other conversation
    as it was, and has called the backend; this holds for every text,
    valid or not. *)
Theorem C4_optimistic_append
    (w : World) (rid text : string) (mode : ChatMode)
    (cur : string) (c : Conversation) :
  currentConversationId (store w) = Some cur ->
  cur ≠ EmptyString ->
  NoDup (ids (store w)) ->
  c ∈ conversations (store w) ->
  id c = cur ->
  let w' := exec (ChatProvider.sendMessage_begin (store w) rid text mode) w in
  let m := createMessage rid (clock w) text user in
  role m = user ∧ content m = JS.trim text ∧
  updateConversationWithMessage (clock w) c m ∈ conversations (store w') ∧
  messages (updateConversationWithMessage (clock w) c m)
    = (messages c ++ [m])%list ∧
  (∀ d, d ∈ conversations (store w) -> id d ≠ cur ->
        d ∈ conversations (store w')) ∧
  length (conversations (store w')) = length (conversations (store w)) ∧
  total_messages (conversations (store w'))
    = S (total_messages (conversations (store w))) ∧
  Spec.one_user_message_appended (store w) (store w') text.
Proof.
  intros Hcur Hne Hdup Hc Hid. cbv zeta.
  assert (conversations (store (exec (ChatProvider.sendMessage_begin
            (store w) rid text mode) w))
          = map (fun conv => if bool_decide (id conv = cur)
                   then updateConversationWithMessage (clock w) conv
                          (createMessage rid (clock w) text user)
                   else conv) (conversations (store w))) as Hcs.
  { run. rewrite Hcur. unfold JS.truthy.
    rewrite bool_decide_eq_false_2 by done. done. }
  unfold Spec.one_user_message_appended. rewrite !Hcs.
  assert (total_messages
            (map (fun conv => if bool_decide (id conv = cur)
                    then updateConversationWithMessage (clock w) conv
                           (createMessage rid (clock w) text user)
                    else conv) (conversations (store w)))
          = S (total_messages (conversations (store w)))) as Htotal.
  { apply total_messages_append; [done|]. subst cur. by apply id_of_member. }
  split_and!; try done.
  - by apply updated_conversation_present.
  - intros d Hd Hother. by apply other_conversation_kept.
  - by rewrite length_map.
  - exists (updateConversationWithMessage (clock w) c
              (createMessage rid (clock w) text user)),
           (createMessage rid (clock w) text user).
    split_and!; try done; [by apply updated_conversation_present|].
    simpl. apply last_snoc.
Qed.

(** C4, amended, at a send into the one selected conversation. *)
Lemma C4_optimistic_append_witness :
  let w := worldOf oneConversation in
  let w' :=
    exec (ChatProvider.sendMessage_begin (store w) "m1" " hello " normal) w in
  let m := createMessage "m1" 1000 " hello " user in
  role m = user ∧ content m = JS.trim " hello " ∧
  updateConversationWithMessage 1000 (emptyConversation "conv-1" 1) m
    ∈ conversations (store w') ∧
  messages (updateConversationWithMessage 1000
              (emptyConversation "conv-1" 1) m) = [m] ∧
  (∀ d, d ∈ conversations (store w) -> id d ≠ "conv-1" ->
        d ∈ conversations (store w')) ∧
  length (conversations (store w')) = 1%nat ∧
  total_messages (conversations (store w')) = 1%nat ∧
  Spec.one_user_message_appended (store w) (store w') " hello ".
Proof.
  apply (C4_optimistic_append (worldOf oneConversation) "m1" " hello " normal
           "conv-1" (emptyConversation "conv-1" 1)).
  - reflexivity.
  - discriminate.
  - apply NoDup_singleton.
  - apply list_elem_of_singleton. reflexivity.
  - reflexivity.
Defined.

(** ** A backend that fails *)

Lemma error_text_not_empty (o : option string) (fallback : string) :
  fallback ≠ EmptyString -> JS.or_else o fallback ≠ EmptyString.
Proof.
  intros Hf. unfold JS.or_else. destruct o as [s|]; [|done].
  by case_bool_decide.
Qed.

(** C5, as the specification words it, fails: when the backend refuses or
    throws, the conversation stays in the collection. *)
Lemma C5_failed_delete_keeps_conversation :
  let before := worldOf oneConversation in
  ¬ Spec.delete_is_local_first
      (store (exec (ChatProvider.deleteConversation "conv-1" 2000 Rejected)
                before)) "conv-1" ∧
  ¬ Spec.delete_is_local_first
      (store (exec (ChatProvider.deleteConversation "conv-1" 2000
                      (refused "Conversation not found")) before)) "conv-1".
Proof.
  cbv zeta. split; intros [_ H]; apply H; vm_compute;
    apply list_elem_of_singleton; reflexivity.
Qed.

(** C5, amended: when the backend's delete fails, [deleteConversation]
    puts the failure's message in [error] (the message of the answer, or
    "Failed to delete conversation" when the answer has none or the call
    threw), and the collection, the selection and the two flags are left as
    they were: the local removal is made only once the backend has
    confirmed. *)
Theorem C5_failed_delete_changes_only_error
    (w : World) (i : string) (resumed : Date) (outcome : Settled unit) :
  unsuccessful outcome = true ->
  let w' := exec (ChatProvider.deleteConversation i resumed outcome) w in
  conversations (store w') = conversations (store w) ∧
  currentConversationId (store w') = currentConversationId (store w) ∧
  error (store w') = Some (deleteFailure outcome) ∧
  deleteFailure outcome ≠ EmptyString ∧
  (∃ e, error (store w') = Some e ∧ e ≠ EmptyString) ∧
  isLoading (store w') = isLoading (store w) ∧
  isTyping (store w') = isTyping (store w) ∧
  trace w' = (trace w ++ [DeleteConversationCall i])%list.
Proof.
  intros Hfail. cbv zeta. run.
  destruct outcome as [response|]; simpl in Hfail.
  - apply negb_true_iff in Hfail. rewrite Hfail. cbn.
    assert (JS.or_else (message response) "Failed to delete conversation"
            ≠ EmptyString) as Hne by (by apply error_text_not_empty).
    split_and!; try done. by eexists.
  - cbn. split_and!; try done. by eexists.
Qed.

(** C5, amended, at a delete the backend refuses with "Conversation not
    found". *)
Lemma C5_failed_delete_witness :
  let w := worldOf oneConversation in
  let w' :=
    exec (ChatProvider.deleteConversation "conv-1" 2000
            (refused "Conversation not found")) w in
  conversations (store w') = conversations (store w) ∧
  currentConversationId (store w') = currentConversationId (store w) ∧
  error (store w') = Some "Conversation not found" ∧
  "Conversation not found" ≠ EmptyString ∧
  (∃ e, error (store w') = Some e ∧ e ≠ EmptyString) ∧
  isLoading (store w') = isLoading (store w) ∧
  isTyping (store w') = isTyping (store w) ∧
  trace w' = [DeleteConversationCall "conv-1"].
Proof.
  apply (C5_failed_delete_changes_only_error
           (worldOf oneConversation) "conv-1" 2000
           (refused "Conversation not found")).
  reflexivity.
Defined.

(** C10: if the backend's send fails while a conversation of the
    collection is selected, then once the send has settled that
    conversation still ends with the optimistic user message, the typing
    flag is down and [error] holds the failure's message. *)
Theorem C10_failed_send_keeps_user_message
    (w : World) (rid text : string) (mode : ChatMode) (resumed : Date)
    (outcome : Settled SendMessageResponse) (cur : string)
    (c : Conversation) :
  currentConversationId (store w) = Some cur ->
  cur ≠ EmptyString ->
  currentConversation (store w) = Some c ->
  unsuccessful outcome = true ->
  let w' :=
    exec (ChatProvider.sendMessage (store w) rid text mode resumed outcome)
         w in
  let m := createMessage rid (clock w) text user in
  role m = user ∧
  (∃ c', currentConversation (store w') = Some c' ∧
         messages c' = (messages c ++ [m])%list) ∧
  isTyping (store w') = false ∧
  error (store w') = Some (sendFailure outcome) ∧
  sendFailure outcome ≠ EmptyString.
Proof.
  intros Hcur Hne Hc Hfail. cbv zeta.
  unfold currentConversation in Hc. rewrite Hcur in Hc.
  run. rewrite Hcur. unfold JS.truthy.
  rewrite bool_decide_eq_false_2 by done. cbn.
  destruct outcome as [response|]; simpl in Hfail.
  - apply negb_true_iff in Hfail. rewrite Hfail. cbn.
    split_and!; try done.
    + eexists. split; [by apply find_append_message|done].
    + by apply error_text_not_empty.
  - cbn. split_and!; try done.
    eexists. split; [by apply find_append_message|done].
Qed.

(** C10 at a send into the one selected conversation, which the backend
    rejects: the conversation holds the one user message. *)
Lemma C10_failed_send_witness :
  let w := worldOf oneConversation in
  let w' :=
    exec (ChatProvider.sendMessage (store w) "m1" "hello" normal 2000
            Rejected) w in
  let m := createMessage "m1" 1000 "hello" user in
  role m = user ∧
  (∃ c', currentConversation (store w') = Some c' ∧ messages c' = [m]) ∧
  isTyping (store w') = false ∧
  error (store w') = Some "Failed to send message" ∧
  "Failed to send message" ≠ EmptyString.
Proof.
  apply (C10_failed_send_keeps_user_message (worldOf oneConversation)
           "m1" "hello" normal 2000 Rejected "conv-1"
           (emptyConversation "conv-1" 1)).
  - reflexivity.
  - discriminate.
  - reflexivity.
  - reflexivity.
Defined.

(** ** The cap on the number of conversations *)



(** ** Saving and loading conversations *)

Section Persistence.

Lemma lookup_probed m key :
  LocalStorageService.probed m !! key
  = if bool_decide (key = LocalStorageService.test) then None
    else items m !! key.
Proof.
  unfold LocalStorageService.probed. case_bool_decide as E.
  - subst key. apply lookup_delete_eq.
  - rewrite lookup_delete_ne by done. by rewrite lookup_insert_ne.
Qed.

Lemma reload_Message m :
  parse (default Null (stringify (of_Message m))) = persisted_Message m.
Proof. destruct m as [i c r t [b|]]; destruct r; reflexivity. Qed.

Lemma reload_Messages ms :
  map parse (map (fun x => default Null (stringify x)) (map of_Message ms))
  = map persisted_Message ms.
Proof.
  induction ms as [|m ms IH]; simpl; [done|].
  rewrite IH. f_equal. apply reload_Message.
Qed.

Lemma reload_Conversation c :
  parse (default Null (stringify (of_Conversation c)))
  = persisted_Conversation c.
Proof.
  destruct c as [i t ms ca ua [[]|]]; simpl;
    unfold persisted_Conversation; simpl; by rewrite reload_Messages.
Qed.

Lemma reload_Conversations cs :
  map parse (map (fun x => default Null (stringify x))
               (map of_Conversation cs))
  = map persisted_Conversation cs.
Proof.
  induction cs as [|c cs IH]; simpl; [done|].
  rewrite IH. f_equal. apply reload_Conversation.
Qed.

End Persistence.

(** C7, as the specification words it, fails: a saved conversation does
    not come back equal, its dates come back as strings. *)
Lemma C7_dates_come_back_as_strings :
  let saved := [emptyConversation "conv-1" 0] in
  let m := storageUtils.saveConversations (workingStorage ∅) saved in
  ¬ Spec.round_trip (workingStorage ∅) saved ∧
  storageUtils.loadConversations m
  = VArr [VObj [("id", VStr "conv-1");
                ("title", VStr "New Conversation");
                ("messages", VArr []);
                ("createdAt", VStr "1970-01-01T00:00:00.000Z");
                ("updatedAt", VStr "1970-01-01T00:00:00.000Z");
                ("mode", VStr "normal")]].
Proof.
  cbv zeta. split.
  - unfold Spec.round_trip. intros H. vm_compute in H. discriminate.
  - vm_compute. reflexivity.
Qed.

(** C7, amended: on a storage that works and takes the write, loading
    after saving gives back every conversation with the same id, title,
    mode and messages (id, content, role, typing flag), but each date
    ([createdAt], [updatedAt], a message's [timestamp]) as the ISO-8601
    string [toISOString] gives for it, not as a [Date]; an absent [mode] or
    typing flag comes back absent. *)
Theorem C7_load_after_save
    (m : Medium) (cs : list Conversation) :
  available m = true ->
  accepts m STORAGE_KEYS.CONVERSATIONS (stringify (of_Conversations cs))
    = true ->
  storageUtils.loadConversations (storageUtils.saveConversations m cs)
  = VArr (map persisted_Conversation cs).
Proof.
  intros Hav Hacc.
  unfold storageUtils.loadConversations, storageUtils.saveConversations,
    LocalStorageService.getItem, LocalStorageService.setItem,
    LocalStorageService.isAvailable.
  rewrite Hav. cbn [negb]. rewrite Hacc. cbn [available negb].
  rewrite lookup_probed, bool_decide_eq_false_2 by done.
  cbn [items]. rewrite lookup_insert_eq.
  unfold of_Conversations. cbn [stringify parse truthy].
  by rewrite reload_Conversations.
Qed.

(** C7, amended, at one saved conversation. *)
Lemma C7_load_after_save_witness :
  storageUtils.loadConversations
    (storageUtils.saveConversations (workingStorage ∅)
       [emptyConversation "conv-1" 0])
  = VArr (map persisted_Conversation [emptyConversation "conv-1" 0]).
Proof.
  apply (C7_load_after_save (workingStorage ∅)
           [emptyConversation "conv-1" 0]); reflexivity.
Defined.

(** ** The initial load *)

(** C8, as the specification words it, fails: with conversations in
    storage the provider still asks the backend, never reads the stored
    conversations, and installs what the backend lists. *)
Lemma C8_load_ignores_stored_conversations :
  let before := mkWorld initialState earlierSession 1000 [] in
  let after := exec (ChatProvider.mount 2000 (ok backendList)) before in
  storageUtils.loadConversations (storage before)
    = VArr [persisted_Conversation (emptyConversation "conv-7" 7)] ∧
  trace after
    = [GetConversationsCall;
       StorageGetItem STORAGE_KEYS.CURRENT_CONVERSATION] ∧
  conversations (store after) = backendList ∧
  currentConversationId (store after) = Some "conv-7" ∧
  ¬ Spec.load_prefers_storage before after.
Proof.
  cbv zeta. split_and!; try (vm_compute; reflexivity).
  intros [_ H].
  assert (GetConversationsCall
          ∈ trace (exec (ChatProvider.mount 2000 (ok backendList))
                     (mkWorld initialState earlierSession 1000 []))) as Hcall
    by (vm_compute; apply list_elem_of_here).
  specialize (H Hcall). vm_compute in H. discriminate.
Qed.

(** C8, amended: the initial load reads from storage only the persisted
    [currentConversationId], which it installs when it is a non-empty
    string, and it calls the backend's [getConversations] every time,
    whatever storage holds; when the call succeeds the collection
    installed is [limitConversations] of the backend's list, and when it
    fails the collection is left as it was and [error] is set. *)
Theorem C8_initial_load_asks_the_backend :
  (∀ w resumed outcome,
     let w' := exec (ChatProvider.mount resumed outcome) w in
     trace w'
       = (trace w ++ [GetConversationsCall;
                      StorageGetItem STORAGE_KEYS.CURRENT_CONVERSATION])%list ∧
     storage w' = storage w ∧
     isLoading (store w') = false ∧
     currentConversationId (store w')
       = (if JS.truthy (storageUtils.loadCurrentConversationId (storage w))
          then storageUtils.loadCurrentConversationId (storage w)
          else currentConversationId (store w))) ∧
  (∀ w resumed cs msg,
     conversations
       (store (exec (ChatProvider.mount resumed
                       (Resolved (mkApiResponse (Some cs) true msg))) w))
     = limitConversations cs) ∧
  (∀ w resumed outcome,
     unsuccessful outcome = true ->
     let w' := exec (ChatProvider.mount resumed outcome) w in
     conversations (store w') = conversations (store w) ∧
     ∃ e, error (store w') = Some e ∧ e ≠ EmptyString).
Proof.
  split_and!.
  - intros w resumed outcome. cbv zeta. run.
    destruct (JS.truthy _); cbn;
      destruct outcome as [[[cs|] [] msg]|]; cbn;
      by rewrite <- ?(assoc_L (++)).
  - intros w resumed cs msg. run. by destruct (JS.truthy _).
  - intros w resumed outcome Hfail. cbv zeta. run.
    destruct outcome as [response|]; simpl in Hfail.
    + apply negb_true_iff in Hfail. rewrite Hfail.
      destruct (JS.truthy _); cbn; (split; [done|]);
        (eexists; split; [done|]); by apply error_text_not_empty.
    + destruct (JS.truthy _); cbn; (split; [done|]); by eexists.
Qed.

(** ** The selection *)

Section Selection.

Lemma selection_valid_same (s s' : ChatState) :
  ids s' = ids s ->
  currentConversationId s' = currentConversationId s ->
  selection_valid s -> selection_valid s'.
Proof. unfold selection_valid. by intros -> ->. Qed.

Lemma selection_valid_add now s c :
  selection_valid (chatReducer now s (ADD_CONVERSATION c)).
Proof. unfold selection_valid, ids. simpl. apply list_elem_of_here. Qed.

Lemma selection_valid_delete now s i :
  selection_valid s ->
  selection_valid (chatReducer now s (DELETE_CONVERSATION i)).
Proof.
  unfold selection_valid, ids. simpl.
  case_bool_decide as E; [done|].
  destruct (currentConversationId s) as [j|]; [|done].
  intros Hj. rewrite ids_delete. apply list_elem_of_filter.
  split; [congruence|done].
Qed.

Lemma step_keeps_selection_valid w w' :
  step w w' -> selection_valid (store w) -> selection_valid (store w').
Proof.
  destruct 1 as [w t|w|w i Hi|w i resumed outcome|w|w state rid text mode
                |w state resumed outcome Hsel|w|w]; intros Hv.
  - done.
  - run. apply (selection_valid_add 0).
  - done.
  - run. destruct outcome as [[d [] msg]|]; cbn; try done.
    by apply (selection_valid_delete 0).
  - done.
  - run. destruct (currentConversationId state) as [cur|]; [|done].
    destruct (JS.truthy (Some cur)); [|done].
    cbn. apply (selection_valid_same (store w)); [|done..].
    apply ids_append_message.
  - run. rewrite Hsel.
    destruct outcome as [[[[ai cid]|] [] msg]|]; cbn; try done.
    apply (selection_valid_same (store w)); [|done..].
    apply ids_append_message.
  - run. destruct (currentConversation (store w)); [done|].
    cbn. apply (selection_valid_add 0).
  - run. by destruct (0 <? _).
Qed.

End Selection.

(** C9, as the specification words it, fails: selecting an id the
    collection does not hold is not a no-op, the id becomes the selection
    and names no conversation. *)
Lemma C9_unknown_selection_is_stored :
  let before := worldOf initialState in
  let after := exec (ChatProvider.selectConversation "ghost") before in
  currentConversationId (store after) = Some "ghost" ∧
  conversations (store after) = [] ∧
  ¬ selection_valid (store after) ∧
  ¬ Spec.unknown_selection_is_noop (store before) (store after) "ghost".
Proof.
  cbv zeta. split_and!; try reflexivity.
  - vm_compute. apply not_elem_of_nil.
  - intros H. specialize (H (not_elem_of_nil _)). discriminate.
Qed.

(** C9, amended: [selectConversation] stores the id it is given, whether
    or not the collection holds it (only the derived current conversation
    is then absent).  In every state reached from the initial one by
    creating and deleting conversations, clearing the error, sending while
    a conversation is selected, the chat page's effect, the saving effects
    and selecting ids that the collection holds, the selection is absent
    or names a conversation of the collection. *)
Theorem C9_selection_names_a_conversation :
  (∀ w i,
     let w' := exec (ChatProvider.selectConversation i) w in
     currentConversationId (store w') = Some i ∧
     conversations (store w') = conversations (store w) ∧
     (i ∉ ids (store w) -> currentConversation (store w') = None)) ∧
  (∀ w, reachable w -> selection_valid (store w)).
Proof.
  split.
  - intros w i. cbv zeta. run. split_and!; try done.
    intros Hi. unfold currentConversation. cbn. by apply find_unknown_id.
  - induction 1 as [m t|w w' _ IH Hstep]; [done|].
    by apply (step_keeps_selection_valid w w').
Qed.

(** * Further properties of the code *)

(** ** Strings *)

Section Strings.

Implicit Types (s t : string) (c : ascii).

Lemma app_cons c s t : String c s +:+ t = String c (s +:+ t).
Proof. reflexivity. Qed.

Lemma app_empty_r s : s +:+ "" = s.
Proof. induction s as [|c s IH]; [done|]. by rewrite app_cons, IH. Qed.

Lemma app_assoc_string s t u : (s +:+ t) +:+ u = s +:+ (t +:+ u).
Proof. induction s as [|c s IH]; [done|]. by rewrite !app_cons, IH. Qed.

Lemma length_app_string s t :
  String.length (s +:+ t) = (String.length s + String.length t)%nat.
Proof.
  induction s as [|c s IH]; [done|]. rewrite app_cons. simpl. by rewrite IH.
Qed.

Lemma rev_app_spec s t : String.rev_app s t = String.rev s +:+ t.
Proof.
  unfold String.rev. revert t. induction s as [|c s IH]; intros t; [done|].
  simpl. rewrite (IH (String c t)), (IH (String c "")).
  by rewrite app_assoc_string.
Qed.

Lemma rev_cons c s : String.rev (String c s) = String.rev s +:+ String c "".
Proof. unfold String.rev at 1. simpl. apply rev_app_spec. Qed.

Lemma rev_app_distr s t :
  String.rev (s +:+ t) = String.rev t +:+ String.rev s.
Proof.
  induction s as [|c s IH]; [by rewrite app_empty_r|].
  rewrite app_cons, !rev_cons, IH. by rewrite app_assoc_string.
Qed.

Lemma rev_involutive s : String.rev (String.rev s) = s.
Proof.
  induction s as [|c s IH]; [done|].
  by rewrite rev_cons, rev_app_distr, IH.
Qed.

Lemma length_rev s : String.length (String.rev s) = String.length s.
Proof.
  induction s as [|c s IH]; [done|].
  rewrite rev_cons, length_app_string, IH. simpl. lia.
Qed.

Lemma trimStart_clean s : clean_start (JS.trimStart s).
Proof.
  induction s as [|c s IH]; [done|]. simpl.
  destruct (JS.is_white_space c) eqn:E; [done|]. exact E.
Qed.

Lemma trimStart_of_clean s : clean_start s -> JS.trimStart s = s.
Proof. destruct s as [|c s]; [done|]. simpl. by intros ->. Qed.

Lemma trimStart_idem s : JS.trimStart (JS.trimStart s) = JS.trimStart s.
Proof. apply trimStart_of_clean, trimStart_clean. Qed.

Lemma length_trimStart s :
  (String.length (JS.trimStart s) <= String.length s)%nat.
Proof.
  induction s as [|c s IH]; [done|]. simpl.
  destruct (JS.is_white_space c); simpl; lia.
Qed.

Lemma trimEnd_idem s : JS.trimEnd (JS.trimEnd s) = JS.trimEnd s.
Proof. unfold JS.trimEnd. by rewrite rev_involutive, trimStart_idem. Qed.

Lemma length_trimEnd s :
  (String.length (JS.trimEnd s) <= String.length s)%nat.
Proof.
  unfold JS.trimEnd. rewrite length_rev.
  etrans; [apply length_trimStart|]. by rewrite length_rev.
Qed.

Lemma trimStart_snoc s c :
  JS.is_white_space c = false ->
  ∃ u, JS.trimStart (s +:+ String c "") = u +:+ String c "".
Proof.
  intros Hc. induction s as [|d s [u IH]].
  - exists "". simpl. by rewrite Hc.
  - rewrite app_cons. simpl. destruct (JS.is_white_space d).
    + by exists u.
    + by exists (String d s).
Qed.

Lemma trimEnd_clean s : clean_start s -> clean_start (JS.trimEnd s).
Proof.
  destruct s as [|c s]; [done|]. simpl. intros Hc.
  unfold JS.trimEnd. rewrite rev_cons.
  destruct (trimStart_snoc (String.rev s) c Hc) as [u ->].
  rewrite rev_app_distr. simpl. exact Hc.
Qed.

Lemma trim_idem s : JS.trim (JS.trim s) = JS.trim s.
Proof.
  unfold JS.trim.
  rewrite (trimStart_of_clean (JS.trimEnd _))
    by apply trimEnd_clean, trimStart_clean.
  apply trimEnd_idem.
Qed.

Lemma length_trim s : JS.length (JS.trim s) <= JS.length s.
Proof.
  unfold JS.length, JS.trim.
  pose proof (length_trimEnd (JS.trimStart s)).
  pose proof (length_trimStart s). lia.
Qed.

Lemma length_substring0 s n :
  String.length (String.substring 0 n s) = (n `min` String.length s)%nat.
Proof.
  revert n. induction s as [|c s IH]; intros [|n]; simpl; try done.
  by rewrite IH.
Qed.

Lemma substring0_all s n :
  (String.length s <= n)%nat -> String.substring 0 n s = s.
Proof.
  revert n. induction s as [|c s IH]; intros [|n]; simpl; try done; try lia.
  intros ?. rewrite IH; [done|lia].
Qed.

Lemma join_split sep s : JS.join (String sep "") (JS.split sep s) = s.
Proof.
  induction s as [|c s IH]; [done|]. simpl.
  case_bool_decide as E.
  - subst. destruct (JS.split sep s) as [|w ws] eqn:Es.
    + simpl in IH. subst. simpl. done.
    + simpl. simpl in IH. rewrite IH. done.
  - destruct (JS.split sep s) as [|w ws] eqn:Es.
    + simpl in IH. by subst.
    + simpl in *. destruct ws; simpl in *; by rewrite <- IH.
Qed.

End Strings.

(** ** Titles *)

Lemma length_cut (content : string) (maxLength : Z) :
  maxLength < JS.length content ->
  JS.length (JS.substr0 content maxLength +:+ "...") = Z.max 0 maxLength + 3.
Proof.
  intros H. unfold JS.length, JS.substr0 in *.
  rewrite length_app_string, length_substring0. simpl. lia.
Qed.

Lemma truncateText_fits (content : string) (maxLength : Z) :
  JS.length content <= maxLength -> truncateText content maxLength = content.
Proof. intros H. unfold truncateText. by rewrite (proj2 (Z.leb_le _ _) H). Qed.

Lemma truncateText_length (content : string) (maxLength : Z) :
  JS.length (truncateText content maxLength) <= Z.max 0 maxLength + 3.
Proof.
  unfold truncateText. destruct (JS.length content <=? maxLength) eqn:E.
  - apply Z.leb_le in E. lia.
  - apply Z.leb_gt in E. rewrite length_cut by done. lia.
Qed.

(** X1: [truncateText] returns a text that fits as it is; a longer one is
    cut to its first [maxLength] characters followed by three dots, so the
    result never has more than [maxLength + 3] characters. *)
Theorem truncateText_bounds (content : string) (maxLength : Z) :
  (JS.length content <= maxLength -> truncateText content maxLength = content) ∧
  (maxLength < JS.length content ->
   truncateText content maxLength
     = JS.substr0 content maxLength +:+ "..." ∧
   JS.length (truncateText content maxLength) = Z.max 0 maxLength + 3) ∧
  JS.length (truncateText content maxLength) <= Z.max 0 maxLength + 3.
Proof.
  split_and!.
  - apply truncateText_fits.
  - intros H. unfold truncateText. rewrite (proj2 (Z.leb_gt _ _) H).
    split; [done|]. by apply length_cut.
  - apply truncateText_length.
Qed.

Lemma title_of_trimmed (firstMessage : string) :
  generateConversationTitle (JS.trim firstMessage)
  = generateConversationTitle firstMessage.
Proof. unfold generateConversationTitle. by rewrite trim_idem. Qed.

(** X2: the title made from a message has at most 53 characters and
    depends on the trimmed message only; when the trimmed message has at
    most six words and at most 50 characters the title is the trimmed
    message itself, and a blank message gives the empty title. *)
Theorem generateConversationTitle_bounds (firstMessage : string) :
  JS.length (generateConversationTitle firstMessage) <= 53 ∧
  generateConversationTitle (JS.trim firstMessage)
    = generateConversationTitle firstMessage ∧
  ((length (JS.split " " (JS.trim firstMessage)) <= 6)%nat ->
   JS.length (JS.trim firstMessage) <= 50 ->
   generateConversationTitle firstMessage = JS.trim firstMessage) ∧
  (JS.trim firstMessage = EmptyString ->
   generateConversationTitle firstMessage = EmptyString).
Proof.
  split_and!.
  - unfold generateConversationTitle.
    pose proof (truncateText_length
      (JS.join " " (JS.slice0 (JS.split " " (JS.trim firstMessage)) 6)) 50).
    lia.
  - apply title_of_trimmed.
  - intros Hwords Hlen. unfold generateConversationTitle, JS.slice0.
    rewrite take_ge by done. rewrite (join_split " ").
    by apply truncateText_fits.
  - intros E. unfold generateConversationTitle. by rewrite E.
Qed.

(** ** Sorting and limiting *)

Section SortingMore.

Lemma insertByDate_same_date t c cs :
  filter (fun x => updatedAt x = t) (insertByDate c cs)
  = filter (fun x => updatedAt x = t) (c :: cs).
Proof.
  induction cs as [|d cs IH]; simpl; [done|].
  destruct (updatedAt d <=? updatedAt c) eqn:E; [done|].
  apply Z.leb_gt in E.
  rewrite (filter_cons _ d), IH, !(filter_cons _ c), (filter_cons _ d).
  repeat case_decide; try done. lia.
Qed.

Lemma sort_same_date t cs :
  filter (fun x => updatedAt x = t) (sortConversationsByDate cs)
  = filter (fun x => updatedAt x = t) cs.
Proof.
  induction cs as [|c cs IH]; simpl; [done|].
  rewrite insertByDate_same_date, !(filter_cons _ c), IH. done.
Qed.

Lemma sort_of_sorted cs :
  StronglySorted moreRecent cs -> sortConversationsByDate cs = cs.
Proof.
  induction 1 as [|c cs Hs IH Hc]; simpl; [done|].
  rewrite IH. destruct cs as [|d cs]; simpl; [done|].
  apply Forall_cons in Hc as [Hd _]. unfold moreRecent in Hd.
  by rewrite (proj2 (Z.leb_le _ _) Hd).
Qed.

Lemma take_sorted n cs :
  StronglySorted moreRecent cs -> StronglySorted moreRecent (take n cs).
Proof.
  intros Hs. rewrite <- (take_drop n cs) in Hs.
  by apply StronglySorted_app_1_l in Hs.
Qed.

End SortingMore.

(** X3: [sortConversationsByDate] rearranges the conversations, most
    recently updated first, and keeps conversations of one [updatedAt] in
    the order they had. *)
Theorem sortConversationsByDate_stable_sort (cs : list Conversation) :
  sortConversationsByDate cs ≡ₚ cs ∧
  StronglySorted moreRecent (sortConversationsByDate cs) ∧
  ∀ t, filter (fun c => updatedAt c = t) (sortConversationsByDate cs)
       = filter (fun c => updatedAt c = t) cs.
Proof.
  split_and!.
  - apply sortConversationsByDate_perm.
  - apply sortConversationsByDate_sorted.
  - intros t. apply sort_same_date.
Qed.

(** X4: sorting and limiting are idempotent, and a list already in order
    and within the cap is left as it is. *)
Theorem limitConversations_idempotent (cs : list Conversation) :
  sortConversationsByDate (sortConversationsByDate cs)
    = sortConversationsByDate cs ∧
  limitConversations (limitConversations cs) = limitConversations cs ∧
  (StronglySorted moreRecent cs ->
   (length cs <= CHAT_CONSTANTS.MAX_CONVERSATIONS)%nat ->
   limitConversations cs = cs).
Proof.
  split_and!.
  - apply sort_of_sorted, sortConversationsByDate_sorted.
  - unfold limitConversations, JS.slice0.
    rewrite sort_of_sorted
      by apply take_sorted, sortConversationsByDate_sorted.
    by rewrite take_take, Nat.min_id.
  - intros Hs Hlen. unfold limitConversations, JS.slice0.
    rewrite sort_of_sorted by done. by apply take_ge.
Qed.

(** ** Building conversations *)

Section Appending.

Lemma appendAll_id c tms : id (appendAll c tms) = id c.
Proof.
  revert c. induction tms as [|tm tms IH]; intros c; [done|].
  unfold appendAll in *. simpl. by rewrite IH.
Qed.

Lemma appendAll_createdAt c tms : createdAt (appendAll c tms) = createdAt c.
Proof.
  revert c. induction tms as [|tm tms IH]; intros c; [done|].
  unfold appendAll in *. simpl. by rewrite IH.
Qed.

Lemma appendAll_messages c tms :
  messages (appendAll c tms) = (messages c ++ map snd tms)%list.
Proof.
  revert c. induction tms as [|tm tms IH]; intros c.
  - simpl. by rewrite app_nil_r.
  - unfold appendAll in *. simpl. rewrite IH. simpl.
    by rewrite <- app_assoc.
Qed.

Lemma appendAll_title_kept c tms :
  messages c ≠ [] -> title (appendAll c tms) = title c.
Proof.
  revert c. induction tms as [|tm tms IH]; intros c Hc; [done|].
  unfold appendAll in *. simpl. rewrite IH.
  - simpl. by rewrite bool_decide_eq_false_2.
  - simpl. by destruct (messages c).
Qed.

Lemma dispatchAppends_conversations i state tms :
  conversations (dispatchAppends i state tms)
  = map (fun conv => if bool_decide (id conv = i)
                     then appendAll conv tms else conv)
        (conversations state).
Proof.
  revert state. induction tms as [|tm tms IH]; intros state.
  - simpl. induction (conversations state) as [|c cs IHc]; [done|].
    simpl. rewrite <- IHc. by case_bool_decide.
  - unfold dispatchAppends in *. simpl. rewrite IH. simpl.
    rewrite map_map. apply map_ext. intros c.
    destruct (decide (id c = i)) as [E|E].
    + rewrite (bool_decide_eq_true_2 (id c = i)) by done. simpl.
      by rewrite bool_decide_eq_true_2 by done.
    + rewrite (bool_decide_eq_false_2 (id c = i)) by done.
      by rewrite bool_decide_eq_false_2 by done.
Qed.

End Appending.

(** X5: a conversation created with a first message is the empty
    conversation to which that message was appended: one user message,
    the title made from it; without a first message, or with the empty
    text, it is empty and called ["New Conversation"]. *)
Theorem createConversation_is_create_then_append
    (cid mid : string) (now : Date) (first : string) :
  first ≠ EmptyString ->
  createConversation cid mid now (Some first)
  = updateConversationWithMessage now
      (createConversation cid mid now None)
      (createMessage mid now first user) ∧
  createConversation cid mid now (Some EmptyString)
  = createConversation cid mid now None ∧
  messages (createConversation cid mid now None) = [] ∧
  title (createConversation cid mid now None) = "New Conversation".
Proof.
  intros Hne. split_and!; try done.
  unfold createConversation, updateConversationWithMessage, JS.truthy.
  rewrite bool_decide_eq_false_2 by done. simpl.
  by rewrite title_of_trimmed.
Qed.

(** X5 at the message [" hello there "]. *)
Lemma createConversation_witness :
  createConversation "c1" "m1" 7 (Some " hello there ")
  = updateConversationWithMessage 7
      (createConversation "c1" "m1" 7 None)
      (createMessage "m1" 7 " hello there " user) ∧
  createConversation "c1" "m1" 7 (Some EmptyString)
  = createConversation "c1" "m1" 7 None ∧
  messages (createConversation "c1" "m1" 7 None) = [] ∧
  title (createConversation "c1" "m1" 7 None) = "New Conversation".
Proof.
  apply (createConversation_is_create_then_append "c1" "m1" 7 " hello there ").
  discriminate.
Defined.

(** X6: a run of [ADD_MESSAGE] actions for one id leaves the other
    conversations as they are and gives each conversation of that id its
    old messages followed by the new ones in the order of dispatch, with
    no message lost, repeated or moved; the id and [createdAt] stay, and
    the title is the one the first message ever appended gave. *)
Theorem appended_messages_keep_their_order
    (i : string) (state : ChatState) (tms : list (Date * Message)) :
  conversations (dispatchAppends i state tms)
    = map (fun conv => if bool_decide (id conv = i)
                       then appendAll conv tms else conv)
          (conversations state) ∧
  currentConversationId (dispatchAppends i state tms)
    = currentConversationId state ∧
  ∀ c,
    messages (appendAll c tms) = (messages c ++ map snd tms)%list ∧
    id (appendAll c tms) = id c ∧
    createdAt (appendAll c tms) = createdAt c ∧
    (messages c ≠ [] -> title (appendAll c tms) = title c) ∧
    (messages c = [] ->
     title (appendAll c tms)
     = match tms with
       | [] => title c
       | tm :: _ => generateConversationTitle (content tm.2)
       end).
Proof.
  split_and!.
  - apply dispatchAppends_conversations.
  - revert state. induction tms as [|tm tms IH]; intros state; [done|].
    unfold dispatchAppends in *. simpl. by rewrite IH.
  - intros c. split_and!.
    + apply appendAll_messages.
    + apply appendAll_id.
    + apply appendAll_createdAt.
    + apply appendAll_title_kept.
    + intros Hc. destruct tms as [|tm tms]; [done|].
      unfold appendAll. simpl. fold (appendAll
        (updateConversationWithMessage tm.1 c tm.2) tms).
      rewrite appendAll_title_kept.
      * simpl. by rewrite bool_decide_eq_true_2.
      * simpl. by destruct (messages c).
Qed.

(** ** Times and devices *)

(** X7: [formatTimestamp] writes "Just now" for an age under a minute
    (also for a time in the future), then whole minutes from 1 to 59,
    whole hours from 1 to 23 and whole days from 1 to 6, and from a week
    on the date in the locale; [formatConversationTime] writes the same
    for the [updatedAt] of the conversation, and nothing for an id the
    collection does not hold. *)
Theorem formatTimestamp_ranges
    (toLocaleDateString : Date -> string) (now timestamp : Date) :
  let age := now - timestamp in
  (age < 60000 ->
   formatTimestamp toLocaleDateString now timestamp = "Just now") ∧
  (60000 <= age < 3600000 ->
   formatTimestamp toLocaleDateString now timestamp
     = pretty (age / 60000) +:+ "m ago" ∧ 1 <= age / 60000 <= 59) ∧
  (3600000 <= age < 86400000 ->
   formatTimestamp toLocaleDateString now timestamp
     = pretty (age / 3600000) +:+ "h ago" ∧ 1 <= age / 3600000 <= 23) ∧
  (86400000 <= age < 604800000 ->
   formatTimestamp toLocaleDateString now timestamp
     = pretty (age / 86400000) +:+ "d ago" ∧ 1 <= age / 86400000 <= 6) ∧
  (604800000 <= age ->
   formatTimestamp toLocaleDateString now timestamp
     = toLocaleDateString timestamp) ∧
  (∀ state i,
     useChat.formatConversationTime toLocaleDateString now state i
     = match find (fun conv => bool_decide (id conv = i))
                  (conversations state) with
       | Some c => formatTimestamp toLocaleDateString now (updatedAt c)
       | None => EmptyString
       end).
Proof.
  cbv zeta. unfold formatTimestamp.
  set (age := now - timestamp).
  split_and!.
  - intros H. assert ((age / 60000 <? 1) = true) as ->; [|done].
    apply Z.ltb_lt. Z.div_mod_to_equations. lia.
  - intros H.
    assert ((age / 60000 <? 1) = false) as ->
      by (apply Z.ltb_ge; Z.div_mod_to_equations; lia).
    assert ((age / 60000 <? 60) = true) as ->
      by (apply Z.ltb_lt; Z.div_mod_to_equations; lia).
    split; [done|]. Z.div_mod_to_equations. lia.
  - intros H.
    assert ((age / 60000 <? 1) = false) as ->
      by (apply Z.ltb_ge; Z.div_mod_to_equations; lia).
    assert ((age / 60000 <? 60) = false) as ->
      by (apply Z.ltb_ge; Z.div_mod_to_equations; lia).
    assert ((age / 3600000 <? 24) = true) as ->
      by (apply Z.ltb_lt; Z.div_mod_to_equations; lia).
    split; [done|]. Z.div_mod_to_equations. lia.
  - intros H.
    assert ((age / 60000 <? 1) = false) as ->
      by (apply Z.ltb_ge; Z.div_mod_to_equations; lia).
    assert ((age / 60000 <? 60) = false) as ->
      by (apply Z.ltb_ge; Z.div_mod_to_equations; lia).
    assert ((age / 3600000 <? 24) = false) as ->
      by (apply Z.ltb_ge; Z.div_mod_to_equations; lia).
    assert ((age / 86400000 <? 7) = true) as ->
      by (apply Z.ltb_lt; Z.div_mod_to_equations; lia).
    split; [done|]. Z.div_mod_to_equations. lia.
  - intros H.
    assert ((age / 60000 <? 1) = false) as ->
      by (apply Z.ltb_ge; Z.div_mod_to_equations; lia).
    assert ((age / 60000 <? 60) = false) as ->
      by (apply Z.ltb_ge; Z.div_mod_to_equations; lia).
    assert ((age / 3600000 <? 24) = false) as ->
      by (apply Z.ltb_ge; Z.div_mod_to_equations; lia).
    assert ((age / 86400000 <? 7) = false) as ->
      by (apply Z.ltb_ge; Z.div_mod_to_equations; lia).
    done.
  - intros state i. unfold useChat.formatConversationTime.
    by destruct (find _ _).
Qed.

(** X8: every width is of exactly one class, mobile below 768, tablet
    from 768 and below 1024, desktop from 1024, and the three tests of the
    helpers agree with the flags the device hook sets. *)
Theorem device_classes_partition (width : Z) :
  checkDeviceType width
    = (isMobileDevice width, isTabletDevice width, isDesktopDevice width) ∧
  (width < 768 -> checkDeviceType width = (true, false, false)) ∧
  (768 <= width < 1024 -> checkDeviceType width = (false, true, false)) ∧
  (1024 <= width -> checkDeviceType width = (false, false, true)).
Proof.
  unfold checkDeviceType, isMobileDevice, isTabletDevice, isDesktopDevice,
    UI_CONSTANTS.MOBILE_BREAKPOINT, UI_CONSTANTS.TABLET_BREAKPOINT.
  split_and!; [done|..]; intros H;
    destruct (width <? 768) eqn:E1; destruct (768 <=? width) eqn:E2;
    destruct (width <? 1024) eqn:E3; destruct (1024 <=? width) eqn:E4;
    simpl; try done; lia.
Qed.

(** ** Local storage *)

Section LocalStorage.

Import LocalStorageService.

Lemma stringify_plain v :
  plain v = true -> ∃ d, stringify v = Some d ∧ parse d = v.
Proof.
  revert v. fix IH 1.
  intros [ | |b|z|s|t|l|fs] Hp; simpl in *; try done;
    try (eexists; split; reflexivity).
  - eexists. split; [reflexivity|]. simpl. f_equal.
    induction l as [|a l IHl]; [done|]. simpl in *.
    apply andb_true_iff in Hp as [Ha Hl].
    destruct (IH a Ha) as (d & Hs & Hd). rewrite Hs. simpl. rewrite Hd.
    f_equal. by apply IHl.
  - eexists. split; [reflexivity|]. simpl. f_equal.
    induction fs as [|[k a] fs IHl]; [done|]. simpl in *.
    apply andb_true_iff in Hp as [Ha Hl].
    destruct (IH a Ha) as (d & Hs & Hd). rewrite Hs. simpl. rewrite Hd.
    f_equal. by apply IHl.
Qed.

Lemma getItem_setItem m key v :
  works m -> plain v = true -> key ≠ test ->
  getItem (setItem m key v) key = v.
Proof.
  intros [Hav Hacc] Hp Hk. unfold getItem, setItem, isAvailable.
  rewrite Hav. cbn [negb]. rewrite Hacc. cbn [available negb].
  rewrite lookup_probed, bool_decide_eq_false_2 by done.
  cbn [items]. rewrite lookup_insert_eq.
  by destruct (stringify_plain v Hp) as (d & -> & ->).
Qed.

Lemma getItem_test m : getItem m test = VNull.
Proof.
  unfold getItem. destruct (negb (isAvailable m)); [done|].
  by rewrite lookup_probed, bool_decide_eq_true_2.
Qed.

Lemma getItem_setItem_other m key v key' :
  key ≠ key' -> getItem (setItem m key v) key' = getItem m key'.
Proof.
  intros Hne. unfold getItem, setItem, isAvailable.
  destruct (available m) eqn:Hav; cbn [negb]; [|by rewrite ?Hav].
  destruct (accepts m key (stringify v)); cbn [available];
    rewrite ?Hav; cbn [negb]; [|done].
  rewrite !lookup_probed. case_bool_decide; [done|].
  cbn [items]. by rewrite lookup_insert_ne.
Qed.

Lemma getItem_removeItem m key : getItem (removeItem m key) key = VNull.
Proof.
  unfold getItem, removeItem, isAvailable.
  destruct (available m) eqn:Hav; cbn [negb available];
    rewrite ?Hav; cbn [negb]; [|done].
  rewrite lookup_probed. case_bool_decide; [done|].
  cbn [items]. by rewrite lookup_delete_eq.
Qed.

Lemma getItem_removeItem_other m key key' :
  key ≠ key' -> getItem (removeItem m key) key' = getItem m key'.
Proof.
  intros Hne. unfold getItem, removeItem, isAvailable.
  destruct (available m) eqn:Hav; cbn [negb available];
    rewrite ?Hav; cbn [negb]; [|done].
  rewrite !lookup_probed. case_bool_decide; [done|].
  cbn [items]. by rewrite lookup_delete_ne.
Qed.

Lemma getItem_remove_all m keys key :
  getItem (foldl removeItem m keys) key
  = if bool_decide (key ∈ keys) then VNull else getItem m key.
Proof.
  revert m. induction keys as [|k keys IH]; intros m; simpl.
  - done.
  - rewrite IH. destruct (decide (key = k)) as [->|Hne].
    + rewrite getItem_removeItem.
      rewrite (bool_decide_eq_true_2 (k ∈ k :: keys))
        by apply list_elem_of_here.
      by case_bool_decide.
    + rewrite getItem_removeItem_other by done.
      case_bool_decide as E1; case_bool_decide as E2; try done.
      * exfalso. apply E2. by apply list_elem_of_further.
      * exfalso. apply elem_of_cons in E2 as [?|?]; done.
Qed.

Lemma works_setItem m key v : works m -> works (setItem m key v).
Proof.
  intros [Hav Hacc]. unfold setItem, isAvailable.
  rewrite Hav. cbn [negb]. rewrite Hacc. by split.
Qed.

End LocalStorage.

(** X9: on a local storage that is available and takes the write, an item
    made of null, booleans, safe integers, strings, arrays and objects,
    with no date and nothing undefined in it, is read back exactly as it
    was written under every key but the one the availability probe uses;
    under that key, [__localStorage_test__], every read gives [null],
    whatever was written, since the probe removes the item first. *)
Theorem localStorage_round_trip (m : Medium) (key : string) (v : value) :
  works m ->
  plain v = true ->
  (key ≠ "__localStorage_test__" ->
   LocalStorageService.getItem (LocalStorageService.setItem m key v) key
   = v) ∧
  (∀ m', LocalStorageService.getItem m' "__localStorage_test__" = VNull).
Proof.
  intros Hw Hp. split.
  - intros Hk. by apply getItem_setItem.
  - apply getItem_test.
Qed.

(** X9 at an object that holds an array and a string. *)
Lemma localStorage_round_trip_witness :
  let v := VObj [("a", VArr [VNum 1; VNull]); ("b", VStr "x")] in
  ("k" ≠ "__localStorage_test__" ->
   LocalStorageService.getItem
     (LocalStorageService.setItem (workingStorage ∅) "k" v) "k" = v) ∧
  (∀ m', LocalStorageService.getItem m' "__localStorage_test__" = VNull).
Proof.
  apply (localStorage_round_trip (workingStorage ∅) "k"
           (VObj [("a", VArr [VNum 1; VNull]); ("b", VStr "x")])).
  - split; reflexivity.
  - reflexivity.
Defined.


(** X11: when local storage cannot be used nothing is thrown: every write,
    removal and clearing leaves it as it is, every read gives [null], and
    the loaders give their defaults: no conversations, no selection, an
    empty UI state, the light theme and English. *)
Theorem unavailable_storage_degrades (m : Medium) (key : string) (v : value) :
  available m = false ->
  LocalStorageService.setItem m key v = m ∧
  LocalStorageService.removeItem m key = m ∧
  LocalStorageService.clear m = m ∧
  storageUtils.clearAllData m = m ∧
  LocalStorageService.getItem m key = VNull ∧
  storageUtils.loadConversations m = VArr [] ∧
  storageUtils.loadCurrentConversationId m = None ∧
  storageUtils.loadUIState m = VObj [] ∧
  storageUtils.loadUserSettings m = VObj [] ∧
  storageUtils.loadTheme m = VStr "light" ∧
  storageUtils.loadLanguage m = VStr "en".
Proof.
  intros Hav.
  unfold storageUtils.clearAllData, storageUtils.loadConversations,
    storageUtils.loadCurrentConversationId, storageUtils.loadUIState,
    storageUtils.loadUserSettings, storageUtils.loadTheme,
    storageUtils.loadLanguage, STORAGE_KEYS.values,
    LocalStorageService.getItem, LocalStorageService.setItem,
    LocalStorageService.removeItem, LocalStorageService.clear,
    LocalStorageService.isAvailable.
  simpl. repeat (rewrite !Hav; cbn [negb]). done.
Qed.

(** X11 at a storage that is switched off. *)
Lemma unavailable_storage_witness :
  let m := mkMedium false (fun _ _ => true) ∅ in
  LocalStorageService.setItem m "k" (VStr "x") = m ∧
  LocalStorageService.removeItem m "k" = m ∧
  LocalStorageService.clear m = m ∧
  storageUtils.clearAllData m = m ∧
  LocalStorageService.getItem m "k" = VNull ∧
  storageUtils.loadConversations m = VArr [] ∧
  storageUtils.loadCurrentConversationId m = None ∧
  storageUtils.loadUIState m = VObj [] ∧
  storageUtils.loadUserSettings m = VObj [] ∧
  storageUtils.loadTheme m = VStr "light" ∧
  storageUtils.loadLanguage m = VStr "en".
Proof.
  apply (unavailable_storage_degrades
           (mkMedium false (fun _ _ => true) ∅) "k" (VStr "x")).
  reflexivity.
Defined.

Lemma load_saved_current_id (m : Medium) (i : option string) :
  works m ->
  storageUtils.loadCurrentConversationId
    (storageUtils.saveCurrentConversationId m i)
  = (if JS.truthy i then i else None).
Proof.
  intros Hw. unfold storageUtils.loadCurrentConversationId,
    storageUtils.saveCurrentConversationId.
  destruct i as [s|]; [|by rewrite getItem_removeItem].
  destruct (JS.truthy (Some s)).
  - by rewrite getItem_setItem.
  - by rewrite getItem_removeItem.
Qed.

(** X12: on a storage that works, the saved selection is read back: a
    non-empty id comes back as it was, and saving no id, or the empty
    one, removes the item, so that no selection is read. *)
Theorem current_id_round_trip (m : Medium) (i : option string) :
  works m ->
  storageUtils.loadCurrentConversationId
    (storageUtils.saveCurrentConversationId m i)
  = (if JS.truthy i then i else None).
Proof. apply load_saved_current_id. Qed.

(** X12 at the id [conv-7]. *)
Lemma current_id_round_trip_witness :
  storageUtils.loadCurrentConversationId
    (storageUtils.saveCurrentConversationId (workingStorage ∅)
       (Some "conv-7"))
  = Some "conv-7".
Proof.
  apply (current_id_round_trip (workingStorage ∅) (Some "conv-7")).
  split; reflexivity.
Defined.

(** X13: the storage kept in memory gives back the very value that was
    set, dates included, when that value is truthy, and [null] when it is
    falsy ([false], [0], the empty string, [null], [undefined]); other
    keys are not touched, and a removed key or a cleared storage reads
    [null]. *)
Theorem memoryStorage_reads_what_was_set
    (storage : gmap string value) (key : string) (v : value) :
  MemoryStorageService.getItem
    (MemoryStorageService.setItem storage key v) key
    = (if truthy v then v else VNull) ∧
  (∀ cs,
     MemoryStorageService.getItem
       (MemoryStorageService.setItem storage key (of_Conversations cs)) key
     = of_Conversations cs) ∧
  (∀ key', key ≠ key' ->
     MemoryStorageService.getItem
       (MemoryStorageService.setItem storage key v) key'
     = MemoryStorageService.getItem storage key') ∧
  MemoryStorageService.getItem
    (MemoryStorageService.removeItem storage key) key = VNull ∧
  MemoryStorageService.getItem (MemoryStorageService.clear storage) key
    = VNull.
Proof.
  unfold MemoryStorageService.getItem, MemoryStorageService.setItem,
    MemoryStorageService.removeItem, MemoryStorageService.clear.
  split_and!.
  - rewrite lookup_insert_eq. by destruct (truthy v).
  - intros cs. by rewrite lookup_insert_eq.
  - intros key' Hne. by rewrite lookup_insert_ne.
  - by rewrite lookup_delete_eq.
  - by rewrite lookup_empty.
Qed.

(** X14: after [clearAllData] each of the six keys of the application
    reads [null], so no conversations and no selection are loaded, and
    every other key of the storage reads what it read before. *)
Theorem clearAllData_clears_the_application_keys (m : Medium) :
  (∀ key, key ∈ STORAGE_KEYS.values ->
     LocalStorageService.getItem (storageUtils.clearAllData m) key = VNull) ∧
  (∀ key, key ∉ STORAGE_KEYS.values ->
     LocalStorageService.getItem (storageUtils.clearAllData m) key
     = LocalStorageService.getItem m key) ∧
  storageUtils.loadConversations (storageUtils.clearAllData m) = VArr [] ∧
  storageUtils.loadCurrentConversationId (storageUtils.clearAllData m)
    = None ∧
  storageUtils.loadTheme (storageUtils.clearAllData m) = VStr "light" ∧
  storageUtils.loadLanguage (storageUtils.clearAllData m) = VStr "en".
Proof.
  unfold storageUtils.clearAllData, storageUtils.loadConversations,
    storageUtils.loadCurrentConversationId, storageUtils.loadTheme,
    storageUtils.loadLanguage.
  split_and!.
  - intros key Hk. rewrite getItem_remove_all.
    by rewrite bool_decide_eq_true_2.
  - intros key Hk. rewrite getItem_remove_all.
    by rewrite bool_decide_eq_false_2.
  - by rewrite getItem_remove_all.
  - by rewrite getItem_remove_all.
  - by rewrite getItem_remove_all.
  - by rewrite getItem_remove_all.
Qed.

(** ** Sends that succeed, and sends that are overtaken *)

Section Sends.

Lemma current_is_conversationOf state cur :
  currentConversationId state = Some cur ->
  currentConversation state = conversationOf state cur.
Proof. unfold currentConversation, conversationOf. by intros ->. Qed.

Lemma filter_append_message now i m cs :
  filter (fun conv => id conv ≠ i)
    (map (fun conv => if bool_decide (id conv = i)
                      then updateConversationWithMessage now conv m
                      else conv) cs)
  = filter (fun conv => id conv ≠ i) cs.
Proof.
  induction cs as [|c cs IH]; [done|]. simpl.
  destruct (decide (id c = i)) as [E|E].
  - rewrite bool_decide_eq_true_2 by done.
    rewrite !filter_cons. simpl.
    rewrite !decide_False by (intros H; by apply H). done.
  - rewrite bool_decide_eq_false_2 by done.
    rewrite !filter_cons, !decide_True by done. by rewrite IH.
Qed.

Lemma find_append_other now i j m cs :
  i ≠ j ->
  find (fun conv => bool_decide (Some (id conv) = Some j))
       (map (fun conv => if bool_decide (id conv = i)
                         then updateConversationWithMessage now conv m
                         else conv) cs)
  = find (fun conv => bool_decide (Some (id conv) = Some j)) cs.
Proof.
  intros Hne. induction cs as [|c cs IH]; [done|]. simpl.
  destruct (decide (id c = i)) as [E|E].
  - rewrite (bool_decide_eq_true_2 (id c = i)) by done.
    rewrite !bool_decide_eq_false_2 by (simpl; congruence). done.
  - rewrite (bool_decide_eq_false_2 (id c = i)) by done.
    by rewrite IH.
Qed.

End Sends.

(** X15: a send into the selected conversation that the backend answers
    under the same id leaves that conversation with its old messages, then
    the user's message, then the reply; an empty conversation takes its
    title from the text; the selection stays, the typing flag is down, no
    error is set and one call was made. *)
Theorem successful_send_appends_both_messages
    (w : World) (rid input : string) (mode : ChatMode) (resumed : Date)
    (ai : Message) (msg : option string) (cur : string) (c : Conversation) :
  currentConversationId (store w) = Some cur ->
  cur ≠ EmptyString ->
  currentConversation (store w) = Some c ->
  let w' :=
    exec (ChatProvider.sendMessage (store w) rid input mode resumed
            (Resolved (mkApiResponse (Some (mkSendMessageResponse ai cur))
                         true msg))) w in
  let um := createMessage rid (clock w) input user in
  (∃ c', currentConversation (store w') = Some c' ∧
         messages c' = (messages c ++ [um; ai])%list ∧
         id c' = id c ∧ updatedAt c' = resumed ∧
         title c' = (if bool_decide (messages c = [])
                     then generateConversationTitle input
                     else title c)) ∧
  currentConversationId (store w') = Some cur ∧
  ids (store w') = ids (store w) ∧
  isTyping (store w') = false ∧
  error (store w') = None ∧
  trace w'
    = (trace w ++ [SendMessageCall
                     (ChatProvider.sendMessage_request (store w) input
                        mode)])%list.
Proof.
  intros Hcur Hne Hc. cbv zeta.
  unfold currentConversation in Hc. rewrite Hcur in Hc.
  run. rewrite Hcur. unfold JS.truthy.
  rewrite bool_decide_eq_false_2 by done. cbn.
  split_and!; try done.
  - eexists. split.
    + apply find_append_message. apply find_append_message. exact Hc.
    + cbn. split_and!; try done.
      * by rewrite <- app_assoc.
      * rewrite (bool_decide_eq_false_2 (_ ++ _ = [])%list)
          by (by destruct (messages c)).
        case_bool_decide; [apply title_of_trimmed|done].
  - unfold ids. cbn. by rewrite !ids_append_message.
Qed.

(** X15 at the first message of the one selected conversation. *)
Lemma successful_send_witness :
  let w := worldOf oneConversation in
  let ai := mkMessage "m2" "Hello!" assistant 2000 (Some false) in
  let w' :=
    exec (ChatProvider.sendMessage (store w) "m1" "hello" normal 2000
            (Resolved (mkApiResponse
                         (Some (mkSendMessageResponse ai "conv-1"))
                         true None))) w in
  let um := createMessage "m1" 1000 "hello" user in
  (∃ c', currentConversation (store w') = Some c' ∧
         messages c' = [um; ai] ∧
         id c' = "conv-1" ∧ updatedAt c' = 2000 ∧
         title c' = generateConversationTitle "hello") ∧
  currentConversationId (store w') = Some "conv-1" ∧
  ids (store w') = ids (store w) ∧
  isTyping (store w') = false ∧
  error (store w') = None ∧
  trace w'
    = [SendMessageCall
         (ChatProvider.sendMessage_request (store w) "hello" normal)].
Proof.
  apply (successful_send_appends_both_messages (worldOf oneConversation)
           "m1" "hello" normal 2000
           (mkMessage "m2" "Hello!" assistant 2000 (Some false)) None
           "conv-1" (emptyConversation "conv-1" 1)).
  - reflexivity.
  - discriminate.
  - reflexivity.
Defined.

(** X16: however the backend's call settles, and whatever state the send
    closed over, once [sendMessage] is over the typing flag is down, the
    collection holds the same ids in the same order, and exactly one call
    was made. *)
Theorem send_always_clears_typing
    (w : World) (state : ChatState) (rid input : string)
    (mode : ChatMode) (resumed : Date)
    (outcome : Settled SendMessageResponse) :
  let w' :=
    exec (ChatProvider.sendMessage state rid input mode resumed outcome)
         w in
  isTyping (store w') = false ∧
  ids (store w') = ids (store w) ∧
  storage w' = storage w ∧
  trace w'
    = (trace w ++ [SendMessageCall
                     (ChatProvider.sendMessage_request state input
                        mode)])%list.
Proof.
  cbv zeta. run. unfold ids.
  destruct (currentConversationId state) as [cur|];
    [destruct (JS.truthy (Some cur))|];
    destruct outcome as [[[[ai cid]|] [] msg]|]; cbn;
    by rewrite ?ids_append_message.
Qed.

(** X17: when the selected conversation is deleted while a send into it
    is under way, the reply that arrives later is dropped without an
    error: the collection is the one of before the send without that
    conversation, nothing is selected, and the typing flag is down. *)
Theorem reply_after_delete_is_dropped
    (w : World) (rid input : string) (mode : ChatMode)
    (deleted resumed : Date) (ai : Message) (msg msg' : option string)
    (d : option unit) (cur : string) :
  currentConversationId (store w) = Some cur ->
  cur ≠ EmptyString ->
  let sent :=
    exec (ChatProvider.sendMessage_begin (store w) rid input mode) w in
  let gone :=
    exec (ChatProvider.deleteConversation cur deleted
            (Resolved (mkApiResponse d true msg'))) sent in
  let settled :=
    exec (ChatProvider.sendMessage_settle (store w) resumed
            (Resolved (mkApiResponse (Some (mkSendMessageResponse ai cur))
                         true msg))) gone in
  conversations (store settled)
    = filter (fun conv => id conv ≠ cur) (conversations (store w)) ∧
  currentConversationId (store settled) = None ∧
  isTyping (store settled) = false ∧
  error (store settled) = None.
Proof.
  intros Hcur Hne. cbv zeta. run. rewrite Hcur. unfold JS.truthy.
  rewrite bool_decide_eq_false_2 by done. cbn.
  split_and!; try done.
  - rewrite filter_append_message.
    apply total_messages_other, deleted_id_absent.
  - by rewrite bool_decide_eq_true_2.
Qed.

(** X17 at the two sample conversations. *)
Lemma reply_after_delete_witness :
  let w := worldOf twoConversations in
  let sent :=
    exec (ChatProvider.sendMessage_begin (store w) "m1" "hello" normal) w in
  let gone :=
    exec (ChatProvider.deleteConversation "conv-2" 1500
            (Resolved (mkApiResponse None true None))) sent in
  let settled :=
    exec (ChatProvider.sendMessage_settle (store w) 2000
            (Resolved (mkApiResponse
                         (Some (mkSendMessageResponse
                                  (mkMessage "m2" "Hello!" assistant 2000
                                     (Some false)) "conv-2"))
                         true None))) gone in
  conversations (store settled)
    = filter (fun conv => id conv ≠ "conv-2") (conversations (store w)) ∧
  currentConversationId (store settled) = None ∧
  isTyping (store settled) = false ∧
  error (store settled) = None.
Proof.
  apply (reply_after_delete_is_dropped (worldOf twoConversations)
           "m1" "hello" normal 1500 2000
           (mkMessage "m2" "Hello!" assistant 2000 (Some false))
           None None None "conv-2").
  - reflexivity.
  - discriminate.
Defined.

(** X18: when another conversation is selected while a send is under way,
    the reply is filed under the id the backend answers with, here the
    conversation the send started in, and the new selection stays. *)
Theorem reply_goes_to_the_conversation_of_the_send
    (w : World) (rid input : string) (mode : ChatMode) (resumed : Date)
    (ai : Message) (msg : option string) (a b : string)
    (c : Conversation) :
  currentConversationId (store w) = Some a ->
  a ≠ EmptyString ->
  conversationOf (store w) a = Some c ->
  let sent :=
    exec (ChatProvider.sendMessage_begin (store w) rid input mode) w in
  let switched := exec (ChatProvider.selectConversation b) sent in
  let settled :=
    exec (ChatProvider.sendMessage_settle (store w) resumed
            (Resolved (mkApiResponse (Some (mkSendMessageResponse ai a))
                         true msg))) switched in
  let um := createMessage rid (clock w) input user in
  currentConversationId (store settled) = Some b ∧
  (∃ c', conversationOf (store settled) a = Some c' ∧
         messages c' = (messages c ++ [um; ai])%list) ∧
  (a ≠ b -> conversationOf (store settled) b = conversationOf (store w) b).
Proof.
  intros Hcur Hne Hc. cbv zeta. unfold conversationOf in *.
  run. rewrite Hcur. unfold JS.truthy.
  rewrite bool_decide_eq_false_2 by done. cbn.
  split_and!; try done.
  - eexists. split.
    + apply find_append_message. apply find_append_message. exact Hc.
    + cbn. by rewrite <- app_assoc.
  - intros Hab. by rewrite !find_append_other.
Qed.

(** X18 at the two sample conversations. *)
Lemma reply_goes_to_the_conversation_witness :
  let w := worldOf twoConversations in
  let ai := mkMessage "m2" "Hello!" assistant 2000 (Some false) in
  let sent :=
    exec (ChatProvider.sendMessage_begin (store w) "m1" "hello" normal) w in
  let switched := exec (ChatProvider.selectConversation "conv-1") sent in
  let settled :=
    exec (ChatProvider.sendMessage_settle (store w) 2000
            (Resolved (mkApiResponse
                         (Some (mkSendMessageResponse ai "conv-2"))
                         true None))) switched in
  let um := createMessage "m1" 1000 "hello" user in
  currentConversationId (store settled) = Some "conv-1" ∧
  (∃ c', conversationOf (store settled) "conv-2" = Some c' ∧
         messages c' = [um; ai]) ∧
  ("conv-2" ≠ "conv-1" ->
   conversationOf (store settled) "conv-1"
   = conversationOf (store w) "conv-1").
Proof.
  apply (reply_goes_to_the_conversation_of_the_send
           (worldOf twoConversations) "m1" "hello" normal 2000
           (mkMessage "m2" "Hello!" assistant 2000 (Some false)) None
           "conv-2" "conv-1" (emptyConversation "conv-2" 2)).
  - reflexivity.
  - discriminate.
  - reflexivity.
Defined.

(** ** Ids, the chat page and the saving effects *)

Section Ids.

Lemma conversation_id_not_empty (t : Date) :
  "conv-" +:+ pretty t ≠ EmptyString.
Proof. by rewrite app_cons. Qed.

Lemma conversation_id_inj (t1 t2 : Date) :
  "conv-" +:+ pretty t1 = "conv-" +:+ pretty t2 <-> t1 = t2.
Proof.
  split; [|by intros ->].
  intros H. apply (inj (String.app "conv-")) in H.
  by apply (inj pretty) in H.
Qed.

Lemma load_saved_conversations (m : Medium) (cs : list Conversation) :
  works m ->
  storageUtils.loadConversations (storageUtils.saveConversations m cs)
  = VArr (map persisted_Conversation cs).
Proof.
  intros [Hav Hacc].
  unfold storageUtils.loadConversations, storageUtils.saveConversations,
    LocalStorageService.getItem, LocalStorageService.setItem,
    LocalStorageService.isAvailable.
  rewrite Hav. cbn [negb]. rewrite Hacc. cbn [available negb].
  rewrite lookup_probed, bool_decide_eq_false_2 by done.
  cbn [items]. rewrite lookup_insert_eq.
  unfold of_Conversations. cbn [stringify parse truthy].
  by rewrite reload_Conversations.
Qed.

Lemma loadConversations_other_key (m m' : Medium) :
  LocalStorageService.getItem m' STORAGE_KEYS.CONVERSATIONS
  = LocalStorageService.getItem m STORAGE_KEYS.CONVERSATIONS ->
  storageUtils.loadConversations m' = storageUtils.loadConversations m.
Proof. unfold storageUtils.loadConversations. by intros ->. Qed.

Lemma saveCurrentConversationId_other_key (m : Medium) (i : option string)
    (key : string) :
  STORAGE_KEYS.CURRENT_CONVERSATION ≠ key ->
  LocalStorageService.getItem
    (storageUtils.saveCurrentConversationId m i) key
  = LocalStorageService.getItem m key.
Proof.
  intros Hne. unfold storageUtils.saveCurrentConversationId.
  destruct i as [s|]; [destruct (JS.truthy (Some s))|].
  - by apply getItem_setItem_other.
  - by apply getItem_removeItem_other.
  - by apply getItem_removeItem_other.
Qed.

End Ids.

(** X19: a conversation made by [createNewConversation] takes its id
    from the clock alone, so two made at different instants have different
    ids, and two made in the same millisecond have the same id; a message
    then sent is appended to both of them. *)
Theorem conversation_ids_follow_the_clock (w : World) (t1 t2 : Date) :
  let w' :=
    exec (elapse t1;; ChatProvider.createNewConversation;;
          elapse t2;; ChatProvider.createNewConversation) w in
  conversations (store w')
    = emptyConversation ("conv-" +:+ pretty t2) t2
      :: emptyConversation ("conv-" +:+ pretty t1) t1
      :: conversations (store w) ∧
  currentConversationId (store w') = Some ("conv-" +:+ pretty t2) ∧
  ("conv-" +:+ pretty t1 = "conv-" +:+ pretty t2 <-> t1 = t2) ∧
  (t1 = t2 ->
   ∀ rid input mode,
     let sent :=
       exec (ChatProvider.sendMessage_begin (store w') rid input mode) w' in
     let um := createMessage rid t2 input user in
     ∃ c1 c2 rest,
       conversations (store sent) = c1 :: c2 :: rest ∧
       messages c1 = [um] ∧ messages c2 = [um] ∧ id c1 = id c2).
Proof.
  cbv zeta. split_and!.
  - by run.
  - by run.
  - apply conversation_id_inj.
  - intros -> rid input mode. run. unfold JS.truthy.
    rewrite bool_decide_eq_false_2 by apply conversation_id_not_empty.
    cbn. rewrite !bool_decide_eq_true_2 by done.
    by eexists _, _, _.
Qed.

(** X20: once the chat page's effect has run there is a current
    conversation; the effect changes nothing when there was one already,
    so running it again changes nothing. *)
Theorem chat_page_always_has_a_conversation (w : World) :
  let w' := exec ChatPage.openConversationEffect w in
  is_Some (currentConversation (store w')) ∧
  (is_Some (currentConversation (store w)) -> w' = w) ∧
  exec ChatPage.openConversationEffect w' = w'.
Proof.
  cbv zeta.
  assert (is_Some (currentConversation
            (store (exec ChatPage.openConversationEffect w)))) as Hsome.
  { run. destruct (currentConversation (store w)) eqn:E; cbn.
    - by rewrite E.
    - run. unfold currentConversation. cbn.
      by rewrite bool_decide_eq_true_2. }
  assert (∀ v, is_Some (currentConversation (store v)) ->
               exec ChatPage.openConversationEffect v = v) as Hskip.
  { intros v [c Hc]. run. rewrite Hc. by destruct v. }
  split_and!; [done|apply Hskip|by apply Hskip].
Qed.

Lemma map_eq_elem {A B} (f g : A -> B) (l : list A) (x : A) :
  map f l = map g l -> x ∈ l -> f x = g x.
Proof.
  induction l as [|a l IH]; simpl; intros H Hx;
    [by apply elem_of_nil in Hx|].
  injection H as H1 H2. apply elem_of_cons in Hx as [->|Hx]; auto.
Qed.

Lemma two_appends (t1 t2 : Date) (state : ChatState) (i j : string)
    (m1 m2 : Message) :
  i ≠ j ->
  conversations
    (chatReducer t2 (chatReducer t1 state (ADD_MESSAGE i m1))
       (ADD_MESSAGE j m2))
  = map (fun c =>
           if bool_decide (id c = i)
           then updateConversationWithMessage t1 c m1
           else if bool_decide (id c = j)
                then updateConversationWithMessage t2 c m2
                else c)
        (conversations state).
Proof.
  intros Hne. simpl. rewrite map_map. apply map_ext. intros c.
  destruct (decide (id c = i)) as [Ei|Ei].
  - rewrite (bool_decide_eq_true_2 (id c = i)) by done. simpl.
    by rewrite bool_decide_eq_false_2 by congruence.
  - by rewrite (bool_decide_eq_false_2 (id c = i)) by done.
Qed.

(** X21: two appends to conversations of different ids are reduced one
    after the other, the first at the instant [t1] and the second at [t2].
    Whichever of the two goes first, the conversations end with the same
    ids, titles, messages, creation dates and modes, in the same order, and
    the rest of the state is the same.  Only [updatedAt] tells the order:
    each of the two conversations is dated with the instant at which its
    own append was reduced.  So the two orders give the same state when
    both appends are reduced at the same instant, and different states when
    the instants differ and the collection holds one of the two ids. *)
Theorem appends_to_different_conversations_commute_up_to_updatedAt
    (t1 t2 : Date) (state : ChatState) (i j : string) (m1 m2 : Message) :
  i ≠ j ->
  let ij :=
    chatReducer t2 (chatReducer t1 state (ADD_MESSAGE i m1))
      (ADD_MESSAGE j m2) in
  let ji :=
    chatReducer t2 (chatReducer t1 state (ADD_MESSAGE j m2))
      (ADD_MESSAGE i m1) in
  map undated (conversations ij) = map undated (conversations ji) ∧
  currentConversationId ij = currentConversationId ji ∧
  isLoading ij = isLoading ji ∧ isTyping ij = isTyping ji ∧
  error ij = error ji ∧
  map updatedAt (conversations ij)
  = map (fun c => if bool_decide (id c = i) then t1
                  else if bool_decide (id c = j) then t2 else updatedAt c)
        (conversations state) ∧
  map updatedAt (conversations ji)
  = map (fun c => if bool_decide (id c = i) then t2
                  else if bool_decide (id c = j) then t1 else updatedAt c)
        (conversations state) ∧
  (t1 = t2 -> ij = ji) ∧
  (t1 ≠ t2 -> i ∈ ids state ∨ j ∈ ids state -> ij ≠ ji).
Proof.
  intros Hne. cbv zeta.
  assert (j ≠ i) as Hne' by congruence.
  assert (map updatedAt
            (conversations
               (chatReducer t2 (chatReducer t1 state (ADD_MESSAGE i m1))
                  (ADD_MESSAGE j m2)))
          = map (fun c => if bool_decide (id c = i) then t1
                          else if bool_decide (id c = j) then t2
                               else updatedAt c)
                (conversations state)) as Hij.
  { rewrite two_appends by done. rewrite map_map. apply map_ext. intros c.
    by repeat case_bool_decide. }
  assert (map updatedAt
            (conversations
               (chatReducer t2 (chatReducer t1 state (ADD_MESSAGE j m2))
                  (ADD_MESSAGE i m1)))
          = map (fun c => if bool_decide (id c = i) then t2
                          else if bool_decide (id c = j) then t1
                               else updatedAt c)
                (conversations state)) as Hji.
  { rewrite two_appends by done. rewrite map_map. apply map_ext. intros c.
    repeat case_bool_decide; try done. congruence. }
  split_and!; try done.
  - rewrite !two_appends by done. rewrite !map_map. apply map_ext.
    intros c. repeat case_bool_decide; try done. congruence.
  - intros <-. destruct state as [cs cur l t e].
    pose proof (two_appends t1 t1 (mkChatState cs cur l t e) i j m1 m2 Hne)
      as H1.
    pose proof (two_appends t1 t1 (mkChatState cs cur l t e) j i m2 m1 Hne')
      as H2.
    simpl in *. f_equal. rewrite H1, H2. apply map_ext. intros c.
    repeat case_bool_decide; try done. congruence.
  - intros Ht Hin Heq. rewrite Heq, Hji in Hij. clear Heq Hji.
    unfold ids in Hin.
    assert (∃ c, c ∈ conversations state ∧ (id c = i ∨ id c = j))
      as (c & Hc & Hid).
    { destruct Hin as [Hin|Hin];
        apply list_elem_of_fmap in Hin as (c & -> & Hc); eauto. }
    pose proof (map_eq_elem _ _ _ c Hij Hc) as Hd. simpl in Hd.
    destruct Hid as [Hid|Hid].
    + rewrite (bool_decide_eq_true_2 (id c = i)) in Hd by done. congruence.
    + rewrite (bool_decide_eq_false_2 (id c = i)) in Hd by congruence.
      rewrite (bool_decide_eq_true_2 (id c = j)) in Hd by done. congruence.
Qed.

(** X21 at the two sample conversations and the instants 10 and 20. *)
Lemma appends_commute_witness :
  let m1 := createMessage "m1" 10 "one" user in
  let m2 := createMessage "m2" 20 "two" user in
  let ij :=
    chatReducer 20 (chatReducer 10 twoConversations (ADD_MESSAGE "conv-1" m1))
      (ADD_MESSAGE "conv-2" m2) in
  let ji :=
    chatReducer 20 (chatReducer 10 twoConversations (ADD_MESSAGE "conv-2" m2))
      (ADD_MESSAGE "conv-1" m1) in
  map undated (conversations ij) = map undated (conversations ji) ∧
  ij ≠ ji.
Proof.
  cbv zeta.
  destruct (appends_to_different_conversations_commute_up_to_updatedAt
              10 20 twoConversations "conv-1" "conv-2"
              (createMessage "m1" 10 "one" user)
              (createMessage "m2" 20 "two" user))
    as (Hsame & _ & _ & _ & _ & _ & _ & _ & Hdiffer).
  - discriminate.
  - split; [exact Hsame|]. apply Hdiffer.
    + discriminate.
    + right. apply list_elem_of_here.
Defined.

(** X22: the saving effects leave the store alone; they do not write an
    empty collection, so the conversations read from storage afterwards
    are the ones read before; on a storage that works a collection that
    is not empty is read back with its dates as strings, and the
    selection is read back, absent when it was absent or empty. *)
Theorem saving_effects_skip_an_empty_collection (w : World) :
  let w' := exec ChatProvider.saveEffects w in
  store w' = store w ∧
  (conversations (store w) = [] ->
   storageUtils.loadConversations (storage w')
   = storageUtils.loadConversations (storage w)) ∧
  (works (storage w) -> conversations (store w) ≠ [] ->
   storageUtils.loadConversations (storage w')
   = VArr (map persisted_Conversation (conversations (store w)))) ∧
  (works (storage w) ->
   storageUtils.loadCurrentConversationId (storage w')
   = (if JS.truthy (currentConversationId (store w))
      then currentConversationId (store w) else None)).
Proof.
  cbv zeta. run.
  destruct (0 <? Z.of_nat (length (conversations (store w)))) eqn:E; cbn.
  - split_and!; try done.
    + intros H. rewrite H in E. done.
    + intros Hw _. rewrite <- (load_saved_conversations (storage w)) by done.
      apply loadConversations_other_key.
      by apply saveCurrentConversationId_other_key.
    + intros Hw. apply load_saved_current_id.
      by apply works_setItem.
  - apply Z.ltb_ge in E. split_and!; try done.
    + intros _. apply loadConversations_other_key.
      by apply saveCurrentConversationId_other_key.
    + intros _ Hne. destruct (conversations (store w)); [done|].
      simpl in E. lia.
    + apply load_saved_current_id.
Qed.

(** ** The UI state *)

(** X23: toggling the sidebar twice gives the state back; a resize that
    does not change the device class dispatches nothing, one that enters
    the mobile class records it and closes the sidebar, one that leaves it
    records it and keeps the sidebar; choosing a page sets the page and,
    on a mobile device, closes the sidebar. *)
Theorem ui_actions_and_the_sidebar (state : UIState) :
  uiReducer (uiReducer state TOGGLE_SIDEBAR) TOGGLE_SIDEBAR = state ∧
  (∀ mobile,
     let state' :=
       UIProvider.dispatchAll state (UIProvider.handleResize state mobile) in
     isMobile state' = mobile ∧
     (mobile = isMobile state -> state' = state) ∧
     (mobile = true -> isMobile state = false ->
      sidebarOpen state' = false) ∧
     (mobile = false -> sidebarOpen state' = sidebarOpen state) ∧
     currentPage state' = currentPage state ∧
     theme state' = theme state ∧ language state' = language state) ∧
  (∀ page,
     let state' :=
       UIProvider.dispatchAll state (UIProvider.setCurrentPage state page) in
     currentPage state' = page ∧
     sidebarOpen state' = (sidebarOpen state && negb (isMobile state)) ∧
     isMobile state' = isMobile state ∧
     theme state' = theme state ∧ language state' = language state) ∧
  uiReducer state
    (LOAD_SAVED_STATE (mkPartialUIState None None None None None)) = state.
Proof.
  destruct state as [open page0 th lang mob].
  split_and!.
  - simpl. by rewrite negb_involutive.
  - intros mobile. cbv zeta.
    destruct mobile, mob, open; simpl; split_and!; done.
  - intros page. cbv zeta. destruct mob, open; simpl; split_and!; done.
  - done.
Qed.

(** X24: the UI state is read back from a working storage exactly as it
    was saved, and so are the theme and the language under their own
    keys. *)
Theorem ui_state_round_trip (m : Medium) (state : UIState) :
  works m ->
  let m' := UIProvider.saveEffects state m in
  storageUtils.loadUIState m' = UIProvider.of_UIState state ∧
  storageUtils.loadTheme m'
    = VStr (UIProvider.of_Theme (theme state)) ∧
  storageUtils.loadLanguage m'
    = VStr (UIProvider.of_Language (language state)) ∧
  storageUtils.loadConversations m' = storageUtils.loadConversations m.
Proof.
  intros Hw. cbv zeta.
  unfold UIProvider.saveEffects, storageUtils.loadUIState,
    storageUtils.loadTheme, storageUtils.loadLanguage,
    storageUtils.saveLanguage, storageUtils.saveTheme,
    storageUtils.saveUIState, storageUtils.loadConversations.
  split_and!.
  - rewrite !getItem_setItem_other by done.
    rewrite getItem_setItem; [done|done| |done].
    by destruct state as [? [] [] [] ?].
  - rewrite getItem_setItem_other by done.
    rewrite getItem_setItem; [|by apply works_setItem|done|done].
    by destruct (theme state).
  - rewrite getItem_setItem; [|by repeat apply works_setItem|done|done].
    by destruct (language state).
  - by rewrite !getItem_setItem_other by done.
Qed.

(** X24 at the initial state of a desktop. *)
Lemma ui_state_round_trip_witness :
  let state := UIProvider.initialState false in
  let m' := UIProvider.saveEffects state (workingStorage ∅) in
  storageUtils.loadUIState m' = UIProvider.of_UIState state ∧
  storageUtils.loadTheme m' = VStr "light" ∧
  storageUtils.loadLanguage m' = VStr "en" ∧
  storageUtils.loadConversations m'
  = storageUtils.loadConversations (workingStorage ∅).
Proof.
  apply (ui_state_round_trip (workingStorage ∅)
           (UIProvider.initialState false)).
  split; reflexivity.
Defined.

(** ** The chat hook and the message input *)

Section Hook.

Lemma find_by_id_absent i (cs : list Conversation) :
  i ∉ map id cs ->
  find (fun conv => bool_decide (id conv = i)) cs = None.
Proof.
  induction cs as [|c cs IH]; simpl; [done|].
  intros [? ?]%not_elem_of_cons.
  rewrite bool_decide_eq_false_2 by done. auto.
Qed.

End Hook.

(** X25: the preview of a conversation is ["No messages yet"] when the
    collection has no conversation of that id or the conversation is
    empty; otherwise it is the content of the last message when that fits
    in [maxLength] characters, and never more than [maxLength + 3]
    characters. *)
Theorem conversation_preview_bounds
    (state : ChatState) (i : string) (maxLength : Z) :
  (i ∉ ids state -> useChat.getLastMessage state i = None) ∧
  (useChat.getLastMessage state i = None ->
   useChat.getConversationPreview state i maxLength = "No messages yet") ∧
  (∀ m, useChat.getLastMessage state i = Some m ->
        (JS.length (content m) <= maxLength ->
         useChat.getConversationPreview state i maxLength = content m) ∧
        JS.length (useChat.getConversationPreview state i maxLength)
        <= Z.max 0 maxLength + 3) ∧
  (∀ c, find (fun conv => bool_decide (id conv = i)) (conversations state)
        = Some c ->
        useChat.getLastMessage state i = last (messages c)).
Proof.
  split_and!.
  - intros Hi. unfold useChat.getLastMessage.
    by rewrite find_by_id_absent.
  - intros H. unfold useChat.getConversationPreview. by rewrite H.
  - intros m H. unfold useChat.getConversationPreview. rewrite H.
    split.
    + intros Hfit. by rewrite (proj2 (Z.leb_le _ _) Hfit).
    + destruct (JS.length (content m) <=? maxLength) eqn:E.
      * apply Z.leb_le in E. lia.
      * apply Z.leb_gt in E.
        pose proof (length_cut (content m) maxLength E) as Hcut.
        unfold JS.substring0. unfold JS.substr0 in Hcut. lia.
  - intros c Hc. unfold useChat.getLastMessage. by rewrite Hc.
Qed.

(** X26: the message input passes on a text only when its trimmed form
    is not empty and nothing is loading; what it passes on is the trimmed
    text, with the mode selected, and the input is emptied; a text within
    the 4000 characters the text area allows is then one that
    [validateMessage] accepts.  Otherwise nothing is sent and the input
    keeps its text. *)
Theorem message_input_sends_valid_text
    (input : string) (loading : bool) (selectedMode : ChatMode) :
  match MessageInput.handleSend input loading selectedMode with
  | (Some (sent, mode), rest) =>
      sent = JS.trim input ∧ sent ≠ EmptyString ∧ JS.trim sent = sent ∧
      mode = selectedMode ∧ rest = EmptyString ∧ loading = false ∧
      MessageInput.canSend input loading = true ∧
      (JS.length input <= APP_CONFIG.MAX_MESSAGE_LENGTH ->
       isValid (validateMessage sent) = true)
  | (None, rest) =>
      rest = input ∧ MessageInput.canSend input loading = false ∧
      (JS.trim input = EmptyString ∨ loading = true)
  end.
Proof.
  unfold MessageInput.handleSend, MessageInput.canSend.
  assert ((0 <? JS.length (JS.trim input))
          = negb (bool_decide (JS.trim input = EmptyString))) as ->.
  { rewrite <- length_zero_empty. unfold JS.length.
    destruct (String.length (JS.trim input)); [done|].
    rewrite (proj2 (Z.ltb_lt _ _)) by lia.
    symmetry. apply negb_true_iff, Z.eqb_neq. lia. }
  case_bool_decide as Hblank; simpl.
  - split_and!; try done. by left.
  - destruct loading; simpl.
    + split_and!; try done. by right.
    + split_and!; try done; [apply trim_idem|].
      intros Hlen. unfold validateMessage.
      rewrite trim_idem, length_zero_empty.
      rewrite !bool_decide_eq_false_2 by done. simpl.
      pose proof (length_trim input).
      assert ((JS.length (JS.trim input) >? APP_CONFIG.MAX_MESSAGE_LENGTH)
              = false) as ->; [|done].
      rewrite Z.gtb_ltb. apply Z.ltb_ge. lia.
Qed.

(** ** The mock backend *)

Section Mock.

Import MockApi.

Lemma findById_id i cs c : findById (Some i) cs = Some c -> id c = i.
Proof.
  unfold findById. induction cs as [|d cs IH]; simpl; [done|].
  case_bool_decide as E; [|done]. intros [= <-]. congruence.
Qed.

Lemma findById_absent_id cs : findById None cs = None.
Proof. unfold findById. induction cs as [|d cs IH]; simpl; done. Qed.

Lemma findById_known i cs :
  i ∈ map id cs -> ∃ c, findById (Some i) cs = Some c ∧ id c = i.
Proof.
  unfold findById. induction cs as [|d cs IH]; simpl.
  - by intros ?%elem_of_nil.
  - intros [->|Hi]%elem_of_cons.
    + exists d. by rewrite bool_decide_eq_true_2.
    + case_bool_decide as E; [exists d; split; congruence|auto].
Qed.

Lemma findById_changeFirst i f cs c :
  (∀ x, id (f x) = id x) ->
  findById (Some i) cs = Some c ->
  findById (Some i) (changeFirst i f cs) = Some (f c).
Proof.
  intros Hf. unfold findById. induction cs as [|d cs IH]; simpl; [done|].
  destruct (decide (id d = i)) as [E|E].
  - rewrite (bool_decide_eq_true_2 (id d = i)) by done.
    rewrite bool_decide_eq_true_2 by congruence. intros [= <-]. simpl.
    by rewrite bool_decide_eq_true_2 by (rewrite Hf; congruence).
  - rewrite (bool_decide_eq_false_2 (id d = i)) by done.
    rewrite bool_decide_eq_false_2 by congruence. intros H. simpl.
    rewrite bool_decide_eq_false_2 by congruence. auto.
Qed.

Lemma length_changeFirst i f cs :
  length (changeFirst i f cs) = length cs.
Proof.
  induction cs as [|d cs IH]; simpl; [done|].
  case_bool_decide; simpl; by rewrite ?IH.
Qed.

Lemma ids_changeFirst i f cs :
  (∀ x, id (f x) = id x) -> map id (changeFirst i f cs) = map id cs.
Proof.
  intros Hf. induction cs as [|d cs IH]; simpl; [done|].
  case_bool_decide; simpl; by rewrite ?IH, ?Hf.
Qed.

Lemma removeFirst_unknown i cs : i ∉ map id cs -> removeFirst i cs = None.
Proof.
  induction cs as [|d cs IH]; simpl; [done|].
  intros [? ?]%not_elem_of_cons.
  rewrite bool_decide_eq_false_2 by done. by rewrite IH.
Qed.

Lemma removeFirst_known i cs :
  i ∈ map id cs ->
  ∃ before c after,
    cs = (before ++ c :: after)%list ∧ id c = i ∧ (i ∉ map id before) ∧
    removeFirst i cs = Some (before ++ after)%list.
Proof.
  induction cs as [|d cs IH]; simpl.
  - by intros ?%elem_of_nil.
  - intros Hi. destruct (decide (id d = i)) as [E|E].
    + rewrite bool_decide_eq_true_2 by done.
      exists [], d, cs. split_and!; try done. apply not_elem_of_nil.
    + rewrite bool_decide_eq_false_2 by done.
      apply elem_of_cons in Hi as [?|Hi]; [congruence|].
      destruct (IH Hi) as (before & c & after & -> & Hc & Hb & ->).
      exists (d :: before), c, after. simpl. split_and!; try done.
      apply not_elem_of_cons. split; [congruence|done].
Qed.

Lemma first_match_gone i (before after : list Conversation) c :
  id c = i -> NoDup (map id (before ++ c :: after)) ->
  i ∉ map id (before ++ after).
Proof.
  intros <-. rewrite !map_app. simpl.
  intros (_ & Hb & [Ha _]%NoDup_cons)%NoDup_app.
  intros [Hin|Hin]%elem_of_app; [|done].
  apply (Hb _ Hin). apply list_elem_of_here.
Qed.

Lemma trim_snoc s c :
  JS.is_white_space c = false ->
  ∃ u, JS.trim (s +:+ String c "") = u +:+ String c "".
Proof.
  intros Hc. unfold JS.trim, JS.trimEnd.
  destruct (trimStart_snoc s c Hc) as [u ->]. exists u.
  rewrite rev_app_distr. change (String.rev (String c "")) with (String c "").
  rewrite app_cons. simpl. rewrite Hc.
  change ("" +:+ String.rev u) with (String.rev u).
  by rewrite rev_cons, rev_involutive.
Qed.

Lemma trim_not_blank r s :
  s ≠ EmptyString -> clean_start (String.rev s) ->
  JS.trim (r +:+ s) ≠ EmptyString.
Proof.
  intros Hs Hclean. rewrite <- (rev_involutive s).
  destruct (String.rev s) as [|c u] eqn:E.
  - exfalso. apply Hs. by rewrite <- (rev_involutive s), E.
  - simpl in Hclean. rewrite rev_cons, <- app_assoc_string.
    destruct (trim_snoc (r +:+ String.rev u) c Hclean) as [v ->].
    by destruct v.
Qed.

Lemma mock_reply_not_blank pick userMessage mode :
  JS.trim (getMockResponse pick userMessage mode) ≠ EmptyString.
Proof.
  unfold getMockResponse.
  destruct (JS.includes _ "react"); [by apply trim_not_blank|].
  destruct (JS.includes _ "typescript"); [by apply trim_not_blank|].
  destruct (JS.includes _ "css" || JS.includes _ "styling");
    by apply trim_not_blank.
Qed.

End Mock.

(** X27: the mock backend always answers a send with success.  For a
    conversation it holds, it appends the question and then its reply to
    the first conversation of that id and returns that id; otherwise it
    puts a new conversation, of the id generated and the mode asked for,
    in front of the others, holding the question and the reply.  The
    reply has the role [assistant] and is never blank. *)
Theorem mock_send_appends_question_and_reply
    (cs : MockApi.Backend) (request : SendMessageRequest)
    (uid cid aid : string) (pick : nat) (now : Date) :
  let answer := MockApi.sendMessage cs request uid cid aid pick now in
  let um := createMessage uid now (req_message request) user in
  success answer.1 = true ∧
  ∃ ai i c',
    data answer.1 = Some (mkSendMessageResponse ai i) ∧
    role ai = assistant ∧ content ai ≠ EmptyString ∧ msg_id ai = aid ∧
    MockApi.findById (Some i) answer.2 = Some c' ∧
    updatedAt c' = now ∧
    match MockApi.findById (req_conversationId request) cs with
    | Some c =>
        i = id c ∧ messages c' = (messages c ++ [um; ai])%list ∧
        title c' = title c ∧ map id answer.2 = map id cs
    | None =>
        i = cid ∧ messages c' = [um; ai] ∧ answer.2 = c' :: cs ∧
        mode c' = Some (req_mode request)
    end.
Proof.
  cbv zeta. unfold MockApi.sendMessage.
  destruct (MockApi.findById (req_conversationId request) cs) as [c|] eqn:E;
    simpl.
  - split; [done|].
    eexists _, _, (mkConversation (id c) (title c) (messages c ++ [_; _])
                     (createdAt c) now (mode c)).
    split_and!; try reflexivity; try apply mock_reply_not_blank.
    + destruct (req_conversationId request) as [i|];
        [|by rewrite findById_absent_id in E].
      pose proof (findById_id _ _ _ E) as Hi. subst i.
      by erewrite (findById_changeFirst (id c) _ cs c).
    + by apply ids_changeFirst.
  - split; [done|].
    eexists _, _, (mkConversation cid _ [_; _] now now
                     (Some (req_mode request))).
    split_and!; try reflexivity; try apply mock_reply_not_blank.
    unfold MockApi.findById. simpl. by rewrite bool_decide_eq_true_2.
Qed.

(** X28: the mock backend refuses to delete an id it does not hold, with
    "Conversation not found", and stays as it is.  For an id it holds it
    answers with success and takes out the first conversation of that id
    and no other: the conversations before it, none of which has the id,
    and the conversations after it stay in their order, later conversations
    of the same id included.  With distinct ids the id is then gone. *)
Theorem mock_delete_removes_first_match
    (cs : MockApi.Backend) (i : string) :
  let answer := MockApi.deleteConversation cs i in
  (i ∉ map id cs ->
   answer = (mkApiResponse None false (Some "Conversation not found"), cs)) ∧
  (i ∈ map id cs ->
   answer.1
   = mkApiResponse None true (Some "Conversation deleted successfully") ∧
   ∃ before c after,
     cs = (before ++ c :: after)%list ∧ id c = i ∧ (i ∉ map id before) ∧
     answer.2 = (before ++ after)%list ∧
     S (length answer.2) = length cs ∧
     (NoDup (map id cs) -> i ∉ map id answer.2)).
Proof.
  cbv zeta. unfold MockApi.deleteConversation. split.
  - intros Hi. by rewrite removeFirst_unknown.
  - intros Hi. destruct (removeFirst_known i cs Hi)
      as (before & c & after & -> & Hc & Hb & ->).
    simpl. split; [done|]. exists before, c, after.
    split_and!; try done.
    + rewrite !length_app. simpl. lia.
    + by apply first_match_gone.
Qed.

(** ** The provider against the mock backend *)

(** X29: with the mock backend, a send into the selected conversation
    ends with the typing flag down, no error and the selection kept.  When
    the backend holds a conversation of that id the store's conversation
    gets the user's message and then the reply.  When it does not, as for
    a conversation made by [createNewConversation], the backend opens a
    conversation of a fresh id and files the reply there, and the store's
    conversation gets the user's message only. *)
Theorem mock_reply_reaches_only_conversations_the_backend_holds
    (s : Session) (rid uid cid aid : string) (pick : nat) (input : string)
    (mode : ChatMode) (resumed : Date) (cur : string) (c : Conversation) :
  currentConversationId (store (world s)) = Some cur ->
  cur ≠ EmptyString ->
  conversationOf (store (world s)) cur = Some c ->
  let s' := Session.sendMessage rid uid cid aid pick input mode resumed s in
  let um := createMessage rid (clock (world s)) input user in
  isTyping (store (world s')) = false ∧
  error (store (world s')) = None ∧
  currentConversationId (store (world s')) = Some cur ∧
  (cur ∈ map id (backend s) ->
   ∃ c' ai, conversationOf (store (world s')) cur = Some c' ∧
            messages c' = (messages c ++ [um; ai])%list ∧
            role ai = assistant ∧
            map id (backend s') = map id (backend s)) ∧
  (cur ∉ map id (backend s) -> cid ∉ ids (store (world s)) ->
   ∃ c' b, conversationOf (store (world s')) cur = Some c' ∧
           messages c' = (messages c ++ [um])%list ∧
           backend s' = b :: backend s ∧ id b = cid ∧
           length (messages b) = 2%nat).
Proof.
  intros Hcur Hne Hc. cbv zeta. unfold conversationOf in *.
  assert (req_conversationId
            (ChatProvider.sendMessage_request (store (world s)) input mode)
          = Some cur) as Hreq.
  { unfold ChatProvider.sendMessage_request, JS.truthy. simpl.
    rewrite Hcur. by rewrite bool_decide_eq_false_2. }
  unfold Session.sendMessage, ApiService.sendMessage, MockApi.sendMessage.
  rewrite Hreq.
  destruct (MockApi.findById (Some cur) (backend s)) as [b|] eqn:E.
  - pose proof (findById_id _ _ _ E) as Hb.
    cbn [world backend]. run. rewrite Hcur. unfold JS.truthy.
    rewrite bool_decide_eq_false_2 by done. cbn.
    split_and!; try done.
    + intros _. eexists _, _. split_and!.
      * rewrite Hb. apply find_append_message, find_append_message.
        exact Hc.
      * cbn. by rewrite <- app_assoc.
      * done.
      * by apply ids_changeFirst.
    + intros Hout. exfalso. apply Hout. rewrite <- Hb.
      apply id_of_member.
      unfold MockApi.findById in E. apply find_some in E as [Hin _].
      by apply list_elem_of_In.
  - cbn [world backend]. run. rewrite Hcur. unfold JS.truthy.
    rewrite bool_decide_eq_false_2 by done. cbn.
    split_and!; try done.
    + intros Hin. exfalso.
      destruct (findById_known cur (backend s) Hin) as (b & Hb & _).
      congruence.
    + intros _ Hfresh. eexists _, _. split_and!; try done.
      * rewrite total_messages_other by (by rewrite ids_append_message).
        by apply find_append_message.
      * done.
Qed.

(** X29 at a conversation the backend does not hold. *)
Lemma mock_reply_witness :
  let s := mkSession (worldOf oneConversation) [] in
  let s' :=
    Session.sendMessage "m1" "u1" "srv-1" "a1" 0 "hello" normal 2000 s in
  let um := createMessage "m1" 1000 "hello" user in
  isTyping (store (world s')) = false ∧
  error (store (world s')) = None ∧
  currentConversationId (store (world s')) = Some "conv-1" ∧
  ("conv-1" ∈ map id (backend s) ->
   ∃ c' ai, conversationOf (store (world s')) "conv-1" = Some c' ∧
            messages c' = [um; ai] ∧
            role ai = assistant ∧
            map id (backend s') = map id (backend s)) ∧
  ("conv-1" ∉ map id (backend s) -> "srv-1" ∉ ids (store (world s)) ->
   ∃ c' b, conversationOf (store (world s')) "conv-1" = Some c' ∧
           messages c' = [um] ∧
           backend s' = b :: backend s ∧ id b = "srv-1" ∧
           length (messages b) = 2%nat).
Proof.
  apply (mock_reply_reaches_only_conversations_the_backend_holds
           (mkSession (worldOf oneConversation) []) "m1" "u1" "srv-1" "a1"
           0%nat "hello" normal 2000 "conv-1"
           (emptyConversation "conv-1" 1)).
  - reflexivity.
  - discriminate.
  - reflexivity.
Defined.

(** X30: with the mock backend, deleting an id the backend does not hold
    fails: the store keeps its conversations and its selection and shows
    "Conversation not found", and the backend stays as it is.  A
    conversation made by [createNewConversation] is never told to the
    backend, so it cannot be deleted while the backend holds no
    conversation of its id.  Deleting an id the backend holds removes it on
    both sides: the store loses every conversation of the id, and its
    selection when that was the id, and the backend loses the first
    conversation of the id and no other. *)
Theorem mock_backend_decides_the_delete
    (s : Session) (i : string) (resumed : Date) :
  let s' := Session.deleteConversation i resumed s in
  (i ∉ map id (backend s) ->
   conversations (store (world s')) = conversations (store (world s)) ∧
   currentConversationId (store (world s'))
     = currentConversationId (store (world s)) ∧
   error (store (world s')) = Some "Conversation not found" ∧
   backend s' = backend s) ∧
  (i ∈ map id (backend s) ->
   conversations (store (world s'))
     = filter (fun conv => id conv ≠ i) (conversations (store (world s))) ∧
   currentConversationId (store (world s'))
     = (if bool_decide (currentConversationId (store (world s)) = Some i)
        then None else currentConversationId (store (world s))) ∧
   error (store (world s')) = None ∧
   (∃ before c after,
      backend s = (before ++ c :: after)%list ∧ id c = i ∧
      (i ∉ map id before) ∧ backend s' = (before ++ after)%list) ∧
   S (length (backend s')) = length (backend s) ∧
   (NoDup (map id (backend s)) -> i ∉ map id (backend s'))) ∧
  (let made := Session.createNewConversation s in
   let new := "conv-" +:+ pretty (clock (world s)) in
   backend made = backend s ∧
   (new ∉ map id (backend s) ->
    conversations (store (world (Session.deleteConversation new resumed
                                   made)))
    = emptyConversation new (clock (world s))
      :: conversations (store (world s)))).
Proof.
  cbv zeta.
  assert (∀ (t : Session) j,
            j ∉ map id (backend t) ->
            conversations (store (world (Session.deleteConversation j
                                           resumed t)))
              = conversations (store (world t)) ∧
            currentConversationId
              (store (world (Session.deleteConversation j resumed t)))
              = currentConversationId (store (world t)) ∧
            error (store (world (Session.deleteConversation j resumed t)))
              = Some "Conversation not found" ∧
            backend (Session.deleteConversation j resumed t) = backend t)
    as Hrefused.
  { intros t j Hj.
    unfold Session.deleteConversation, ApiService.deleteConversation,
      MockApi.deleteConversation.
    rewrite removeFirst_unknown by done. cbn [world backend]. by run. }
  split_and!.
  - apply Hrefused.
  - intros Hi.
    unfold Session.deleteConversation, ApiService.deleteConversation,
      MockApi.deleteConversation.
    destruct (removeFirst_known i (backend s) Hi)
      as (before & c & after & Hcs & Hc & Hb & ->).
    cbn [world backend]. run. rewrite Hcs. split_and!; try done.
    + by exists before, c, after.
    + rewrite !length_app. simpl. lia.
    + by apply first_match_gone.
  - done.
  - intros Hnew.
    by destruct (Hrefused (Session.createNewConversation s)
                   ("conv-" +:+ pretty (clock (world s))) Hnew) as [-> _].
Qed.
